(** * swarms: the workflow base class and the tool-command extractor

    A shallow embedding of [swarms/structs/base_workflow.py] and of
    [extract_tool_commands] from [swarms/tools/tool_utils.py], with the
    properties their specification states about them.

    Python objects are modelled at two levels.  Plain data (what JSON can
    carry, plus opaque objects such as agents) is the inductive type
    [pyval].  [Task] instances are mutable and may be shared between
    several lists, so they live in a store and lists hold references to
    them.  Methods run in a state-and-exception monad over a [world]
    (store, the workflow's attributes, the file system, standard output):
    as in Python, what a method changed before raising stays changed.
    The two list attributes of a workflow are first followed each on its
    own; an [instance] adds whether they are one list object, and the
    methods of [InPlace] what a change of that object shows under its
    other name. *)

From Stdlib Require Import ZArith String Ascii List Bool Lia DecimalString.
From Stdlib Require HexadecimalString.
From Stdlib Require DecimalNat.
From stdpp Require Import base option list gmap strings.

Set Warnings "-register-all".

Local Open Scope string_scope.
Local Open Scope list_scope.
Local Open Scope Z_scope.
Local Open Scope nat_scope.

(** ** Python data *)

(** Values that task fields, keyword mappings and JSON documents hold.
    [PDict] is an insertion-ordered mapping with string keys (keyword
    arguments, JSON objects).  [PObj] is any other object, known only by
    its identity: it compares equal to itself alone and [json] cannot
    serialise it.  Floats are left out. *)
Inductive pyval : Type :=
| PNone
| PBool (b : bool)
| PInt (z : Z)
| PStr (s : string)
| PList (xs : list pyval)
| PDict (kvs : list (string * pyval))
| PObj (id : nat).

(** First binding of a key in an ordered mapping. *)
Fixpoint dict_get {A : Type} (k : string) (kvs : list (string * A)) : option A :=
  match kvs with
  | [] => None
  | (k', v) :: rest => if String.eqb k k' then Some v else dict_get k rest
  end.

(** [d[k] = v]: an existing key keeps its position, a new key goes last. *)
Fixpoint dict_set {A : Type} (k : string) (v : A) (kvs : list (string * A))
  : list (string * A) :=
  match kvs with
  | [] => [(k, v)]
  | (k', v') :: rest =>
      if String.eqb k k' then (k', v) :: rest else (k', v') :: dict_set k v rest
  end.

(** [d.update(other)]: the bindings of [other] are stored one by one. *)
Definition dict_update {A : Type} (d other : list (string * A)) : list (string * A) :=
  fold_left (fun acc kv => dict_set (fst kv) (snd kv) acc) other d.

(** Python's [==] on data.  [bool] is a subclass of [int], so [True == 1];
    lists compare element-wise, mappings by key irrespective of order,
    values of unrelated types are unequal. *)
Fixpoint py_eq (a b : pyval) {struct a} : bool :=
  match a, b with
  | PNone, PNone => true
  | PBool x, PBool y => Bool.eqb x y
  | PBool x, PInt y => Z.eqb (Z.b2z x) y
  | PInt x, PBool y => Z.eqb x (Z.b2z y)
  | PInt x, PInt y => Z.eqb x y
  | PStr x, PStr y => String.eqb x y
  | PList xs, PList ys =>
      (fix elems (xs ys : list pyval) {struct xs} : bool :=
         match xs, ys with
         | [], [] => true
         | x :: xs', y :: ys' => py_eq x y && elems xs' ys'
         | _, _ => false
         end) xs ys
  | PDict xs, PDict ys =>
      Nat.eqb (length xs) (length ys) &&
      (fix items (xs : list (string * pyval)) {struct xs} : bool :=
         match xs with
         | [] => true
         | (k, v) :: xs' =>
             match dict_get k ys with
             | Some v' => py_eq v v'
             | None => false
             end && items xs'
         end) xs
  | PObj i, PObj j => Nat.eqb i j
  | _, _ => false
  end.

(** [json.dump] accepts exactly the values free of opaque objects. *)
Fixpoint serialisable (v : pyval) : bool :=
  match v with
  | PObj _ => false
  | PList xs => forallb serialisable xs
  | PDict kvs =>
      (fix items (kvs : list (string * pyval)) : bool :=
         match kvs with
         | [] => true
         | (_, x) :: rest => serialisable x && items rest
         end) kvs
  | _ => true
  end.

(** Keys of a [dict] must be hashable: lists and mappings are not. *)
Definition hashable (v : pyval) : bool :=
  match v with
  | PList _ | PDict _ => false
  | _ => true
  end.

(** ** Tasks and references *)

(** Modelled from the spec: the [Task] class ([swarms/structs/task.py]) is
    not among the sources.  It is the record of the six fields the
    workflow reads, writes and passes to the constructor; Python does not
    check the annotated types, so every field holds an arbitrary value.
    The class is taken to be a dataclass, as the keyword constructor and
    the [repr] quoted in the docstring of [delete_task] show: instances
    are true, and [==] is the generated field-wise comparison. *)
Record Task : Type := mkTask {
  description : pyval;
  agent : pyval;
  args : pyval;
  kwargs : pyval;
  result : pyval;
  history : pyval
}.

Abbreviation loc := nat.

(** What a name such as the parameter and loop variable [task] can denote:
    a piece of data (the description string a caller passes) or a
    reference to an object of the store. *)
Inductive value : Type :=
| VData (v : pyval)
| VTask (l : loc).

Definition set_result (r : pyval) (t : Task) : Task :=
  mkTask (description t) (agent t) (args t) (kwargs t) r (history t).

Definition set_kwargs (k : pyval) (t : Task) : Task :=
  mkTask (description t) (agent t) (args t) k (result t) (history t).

(** The [__eq__] a dataclass generates: field by field. *)
Definition task_eq (t u : Task) : bool :=
  py_eq (description t) (description u) && py_eq (agent t) (agent u) &&
  py_eq (args t) (args u) && py_eq (kwargs t) (kwargs u) &&
  py_eq (result t) (result u) && py_eq (history t) (history u).

(** [a == b] in a given store.  Two references are equal when they are the
    same object or both are tasks with equal fields.  Data against a task
    is never equal: the data types answer [NotImplemented] for a foreign
    operand, so does the dataclass for another class, and Python falls
    back on identity. *)
Definition value_eq (st : list Task) (a b : value) : bool :=
  match a, b with
  | VData x, VData y => py_eq x y
  | VTask l, VTask m =>
      Nat.eqb l m ||
      match st !! l, st !! m with
      | Some t, Some u => task_eq t u
      | _, _ => false
      end
  | _, _ => false
  end.

(** ** Exceptions and diagnostics *)

Inductive exn : Type :=
| ValueError_no_task                 (* "You must provide a task or a list of tasks" *)
| ValueError_not_found (task : value) (* f"Task {task} not found in workflow." *)
| ValueError_not_in_list             (* list.remove(x): x not in list *)
| AttributeError (name : string)
| KeyError (key : string)
| TypeError (what : string)
| OSError (path : string)
| JSONDecodeError.

(** One [print(colored(f"<context>: {error}", "red"))]. *)
Record diagnostic : Type := Diag { context : string; error : exn }.

(** ** The world a method runs in *)

(** A file holds the text of a JSON document, identified with the value it
    decodes to, or text [json.load] rejects (an empty or truncated file
    among others).  [json.dump] followed by [json.load] is the identity on
    serialisable values, which is what [FDoc] records. *)
Inductive fcontent : Type :=
| FDoc (v : pyval)
| FBroken.

Record filesystem : Type := mkFs {
  files : gmap string fcontent;
  denied : gset string      (* paths [open] refuses, for reading and writing *)
}.

(** The attributes of a workflow instance.  [BaseWorkflow.__init__] binds
    [task_pool] only; [tasks], [max_loops] and the two default paths are
    bound by subclasses or callers, so each of them may be missing.
    [task_pool] and [tasks] hold the contents of the lists the two
    attributes name.  The methods of this part follow each attribute on
    its own, which is what the code does on a workflow whose attributes
    name two list objects.  Nothing in the class binds [tasks] before it
    is used, so it can also name the list [task_pool] names: [instance],
    further down, records whether it does, and the methods of [InPlace]
    carry a change made to that one object over to its other name. *)
Record BaseWorkflow : Type := mkWorkflow {
  task_pool : list loc;
  tasks : option (list loc);
  max_loops : option pyval;
  saved_state_filepath : option string;
  restore_state_filepath : option string
}.

Record world : Type := mkWorld {
  store : list Task;
  self : BaseWorkflow;
  disk : filesystem;
  stdout : list diagnostic
}.

Definition with_task_pool (tp : list loc) (o : BaseWorkflow) : BaseWorkflow :=
  mkWorkflow tp (tasks o) (max_loops o)
             (saved_state_filepath o) (restore_state_filepath o).

Definition with_tasks (ts : option (list loc)) (o : BaseWorkflow) : BaseWorkflow :=
  mkWorkflow (task_pool o) ts (max_loops o)
             (saved_state_filepath o) (restore_state_filepath o).

Definition with_max_loops (m : option pyval) (o : BaseWorkflow) : BaseWorkflow :=
  mkWorkflow (task_pool o) (tasks o) m
             (saved_state_filepath o) (restore_state_filepath o).

Definition with_store (st : list Task) (w : world) : world :=
  mkWorld st (self w) (disk w) (stdout w).

Definition with_self (o : BaseWorkflow) (w : world) : world :=
  mkWorld (store w) o (disk w) (stdout w).

Definition with_disk (d : filesystem) (w : world) : world :=
  mkWorld (store w) (self w) d (stdout w).

Definition with_stdout (out : list diagnostic) (w : world) : world :=
  mkWorld (store w) (self w) (disk w) out.

(** ** The monad *)

Inductive outcome (A : Type) : Type :=
| Returned (a : A)
| Raised (e : exn).
Arguments Returned {A} a.
Arguments Raised {A} e.

Definition M (A : Type) : Type := world -> outcome A * world.

Definition ret {A : Type} (a : A) : M A := fun w => (Returned a, w).

Definition bind {A B : Type} (m : M A) (k : A -> M B) : M B :=
  fun w =>
    match m w with
    | (Returned a, w') => k a w'
    | (Raised e, w') => (Raised e, w')
    end.

Definition raise {A : Type} (e : exn) : M A := fun w => (Raised e, w).

Definition gets {A : Type} (f : world -> A) : M A := fun w => (Returned (f w), w).

Definition modify (f : world -> world) : M unit := fun w => (Returned tt, f w).

(** [try: body / except Exception as error: print(colored(f"ctx: {error}"))].
    A method whose body raised falls off its end and so returns [None],
    here the [default]. *)
Definition try_except {A : Type} (ctx : string) (default : A) (body : M A) : M A :=
  fun w =>
    match body w with
    | (Returned a, w') => (Returned a, w')
    | (Raised e, w') => (Returned default, with_stdout (stdout w' ++ [Diag ctx e]) w')
    end.

Declare Scope py_scope.
Delimit Scope py_scope with py.
Bind Scope py_scope with M.
Notation "x <- m ;; k" := (bind m (fun x => k))
  (at level 20, m at level 99, k at level 200, only parsing) : py_scope.
Notation "m ;; k" := (bind m (fun _ => k))
  (at level 100, k at level 200, only parsing, right associativity) : py_scope.
Local Open Scope py_scope.

(** [for x in xs: body(x)] without [break]. *)
Fixpoint for_each {A : Type} (xs : list A) (body : A -> M unit) : M unit :=
  match xs with
  | [] => ret tt
  | x :: rest => bind (body x) (fun _ => for_each rest body)
  end.

(** [[f(x) for x in xs]]. *)
Fixpoint map_M {A B : Type} (f : A -> M B) (xs : list A) : M (list B) :=
  match xs with
  | [] => ret []
  | x :: rest => bind (f x) (fun y => bind (map_M f rest) (fun ys => ret (y :: ys)))
  end.

(** [[x for x in xs if keep(x)]]. *)
Fixpoint filter_M {A : Type} (keep : A -> M bool) (xs : list A) : M (list A) :=
  match xs with
  | [] => ret []
  | x :: rest =>
      bind (keep x) (fun b =>
      bind (filter_M keep rest) (fun ys => ret (if b then x :: ys else ys)))
  end.

(** ** Attribute access, containers and files *)

(** [self.tasks]: an [AttributeError] when the attribute was never bound. *)
Definition get_tasks : M (list loc) :=
  fun w =>
    match tasks (self w) with
    | Some ts => (Returned ts, w)
    | None => (Raised (AttributeError "tasks"), w)
    end.

(** What [self.tasks] shows after [self.tasks = ts], and after
    [self.tasks.append] or [self.tasks.remove] made [ts] of its list. *)
Definition put_tasks (ts : list loc) : M unit :=
  modify (fun w => with_self (with_tasks (Some ts) (self w)) w).

(** [x.<name>] where the class declares the field read by [field].  The
    store holds the [Task] objects.  A string has no such attribute.  A
    reference outside the store stands for an object that has no
    attributes and takes none, such as a [str], an [int] or [None] put
    in the pool: reading an attribute of it raises [AttributeError], and
    so does writing one.  Objects of other classes, with attributes of
    their own, are not in the model. *)
Definition getattr (name : string) (field : Task -> pyval) (x : value) : M pyval :=
  fun w =>
    match x with
    | VTask l =>
        match store w !! l with
        | Some t => (Returned (field t), w)
        | None => (Raised (AttributeError name), w)
        end
    | VData _ => (Raised (AttributeError name), w)
    end.

(** [x.<name> = v], the field being written by [update]. *)
Definition setattr (name : string) (update : Task -> Task) (x : value) : M unit :=
  fun w =>
    match x with
    | VTask l =>
        match store w !! l with
        | Some t => (Returned tt, with_store (<[l := update t]> (store w)) w)
        | None => (Raised (AttributeError name), w)
        end
    | VData _ => (Raised (AttributeError name), w)
    end.

(** [Task(...)]: a new object, at the first free address. *)
Definition new_task (t : Task) : M loc :=
  fun w => (Returned (length (store w)), with_store (store w ++ [t]) w).

(** [v[k]] for a string [k]. *)
Definition subscript (v : pyval) (k : string) : M pyval :=
  match v with
  | PDict kvs =>
      match dict_get k kvs with
      | Some x => ret x
      | None => raise (KeyError k)
      end
  | PList _ | PStr _ => raise (TypeError "indices must be integers")
  | _ => raise (TypeError "object is not subscriptable")
  end.

Fixpoint chars (s : string) : list pyval :=
  match s with
  | EmptyString => []
  | String c rest => PStr (String c EmptyString) :: chars rest
  end.

(** What [for x in v] ranges over: the items of a list, the keys of a
    mapping, the characters of a string. *)
Definition py_iter (v : pyval) : M (list pyval) :=
  match v with
  | PList xs => ret xs
  | PDict kvs => ret (map (fun kv => PStr (fst kv)) kvs)
  | PStr s => ret (chars s)
  | _ => raise (TypeError "object is not iterable")
  end.

(** [d[k] = v] on a [dict] keyed by values: keys are compared with [==]. *)
Fixpoint setitem (k v : pyval) (d : list (pyval * pyval)) : list (pyval * pyval) :=
  match d with
  | [] => [(k, v)]
  | (k', v') :: rest =>
      if py_eq k' k then (k', v) :: rest else (k', v') :: setitem k v rest
  end.

(** [a or b] on paths: [None] and the empty string are false. *)
Definition truthy_path (p : option string) : bool :=
  match p with
  | Some s => negb (String.eqb s EmptyString)
  | None => false
  end.

Definition can_open (fs : filesystem) (path : string) : bool :=
  negb (String.eqb path EmptyString) && negb (bool_decide (path ∈ denied fs)).

Definition write_file (path : string) (c : fcontent) (fs : filesystem) : filesystem :=
  mkFs (<[path := c]> (files fs)) (denied fs).

(** [open(path, "w")]: creates or truncates the file. *)
Definition open_w (path : string) : M unit :=
  fun w =>
    if can_open (disk w) path
    then (Returned tt, with_disk (write_file path FBroken (disk w)) w)
    else (Raised (OSError path), w).

(** [json.dump(v, f)] on the file just opened at [path]: a value that
    cannot be serialised raises and leaves a truncated document behind. *)
Definition json_dump (v : pyval) (path : string) : M unit :=
  fun w =>
    if serialisable v
    then (Returned tt, with_disk (write_file path (FDoc v) (disk w)) w)
    else (Raised (TypeError "Object is not JSON serializable"),
          with_disk (write_file path FBroken (disk w)) w).

(** [open(path, "r")] followed by [json.load(f)]. *)
Definition open_r_json_load (path : string) : M pyval :=
  fun w =>
    if can_open (disk w) path
    then match files (disk w) !! path with
         | Some (FDoc v) => (Returned v, w)
         | Some FBroken => (Raised JSONDecodeError, w)
         | None => (Raised (OSError path), w)
         end
    else (Raised (OSError path), w).

(** [a == b], evaluated in the current store. *)
Definition equal (a b : value) : M bool :=
  fun w => (Returned (value_eq (store w) a b), w).

(** ** The methods of [BaseWorkflow] *)

(** [add(task=None, tasks=None)].  A task object is true, [None] is false;
    a list is true when it is not empty.  Nothing catches the
    [ValueError]. *)
Definition add (task : option loc) (tasks : option (list loc)) : M unit :=
  match task with
  | Some t =>
      modify (fun w => with_self (with_task_pool (task_pool (self w) ++ [t]) (self w)) w)
  | None =>
      match tasks with
      | Some (t :: ts) =>
          modify (fun w =>
            with_self (with_task_pool (task_pool (self w) ++ t :: ts) (self w)) w)
      | Some [] | None => raise ValueError_no_task
      end
  end.

Definition reset_body : M unit :=
  ts <- get_tasks ;;
  for_each ts (fun l =>
    let task := VTask l in
    setattr "result" (set_result PNone) task).

Definition reset : M unit :=
  try_except "Error resetting workflow" tt reset_body.

(** The dict comprehension of [get_task_results]: key, then value, then
    the store into the mapping under construction. *)
Fixpoint results_of (ts : list loc) (acc : list (pyval * pyval))
  : M (list (pyval * pyval)) :=
  match ts with
  | [] => ret acc
  | l :: rest =>
      let task := VTask l in
      k <- getattr "description" description task ;;
      v <- getattr "result" result task ;;
      if hashable k then results_of rest (setitem k v acc)
      else raise (TypeError "unhashable type")
  end.

Definition get_task_results_body : M (option (list (pyval * pyval))) :=
  ts <- get_tasks ;;
  d <- results_of ts [] ;;
  ret (Some d).

Definition get_task_results : M (option (list (pyval * pyval))) :=
  try_except "Error getting task results" None get_task_results_body.

(** [remove_task(task)], the [try] block first.  The comprehension has a
    scope of its own and its loop variable is called [task] too, so the
    condition compares each element's description with the element, not
    with the parameter. *)
Definition remove_task_body (task : value) : M unit :=
  ts <- get_tasks ;;
  kept <- filter_M (fun l =>
            let task := VTask l in
            d <- getattr "description" description task ;;
            same <- equal (VData d) task ;;
            ret (negb same)) ts ;;
  put_tasks kept.

Definition remove_task (task : value) : M unit :=
  try_except "Error removing task from workflow" tt (remove_task_body task).

(** [task.kwargs.update(updates)]. *)
Definition kwargs_update (task : value) (updates : list (string * pyval)) : M unit :=
  k <- getattr "kwargs" kwargs task ;;
  match k with
  | PDict kvs => setattr "kwargs" (set_kwargs (PDict (dict_update kvs updates))) task
  | _ => raise (AttributeError "update")
  end.

(** The [for ... else] of [update_task].  The loop variable reuses the
    parameter's name: from the first iteration on, [task] is an element of
    the list, in the comparison and in the message of the [else] branch. *)
Fixpoint update_task_loop (updates : list (string * pyval)) (task : value)
    (ts : list loc) : M unit :=
  match ts with
  | [] => raise (ValueError_not_found task)
  | l :: rest =>
      let task := VTask l in
      d <- getattr "description" description task ;;
      same <- equal (VData d) task ;;
      if same then kwargs_update task updates
      else update_task_loop updates task rest
  end.

Definition update_task_body (task : value) (updates : list (string * pyval)) : M unit :=
  ts <- get_tasks ;;
  update_task_loop updates task ts.

Definition update_task (task : value) (updates : list (string * pyval)) : M unit :=
  try_except "Error updating task in workflow" tt (update_task_body task updates).

(** [xs.remove(x)]: drops the first element equal to [x]. *)
Fixpoint list_remove (same : loc -> bool) (xs : list loc) : option (list loc) :=
  match xs with
  | [] => None
  | y :: rest =>
      if same y then Some rest
      else match list_remove same rest with
           | Some rest' => Some (y :: rest')
           | None => None
           end
  end.

(** [self.tasks.remove(task)]. *)
Definition tasks_remove (task : value) : M unit :=
  ts <- get_tasks ;;
  st <- gets store ;;
  match list_remove (fun y => value_eq st (VTask y) task) ts with
  | Some ts' => put_tasks ts'
  | None => raise ValueError_not_in_list
  end.

Fixpoint delete_task_loop (task : value) (ts : list loc) : M unit :=
  match ts with
  | [] => raise (ValueError_not_found task)
  | l :: rest =>
      let task := VTask l in
      d <- getattr "description" description task ;;
      same <- equal (VData d) task ;;
      if same then tasks_remove task
      else delete_task_loop task rest
  end.

Definition delete_task_body (task : value) : M unit :=
  ts <- get_tasks ;;
  delete_task_loop task ts.

Definition delete_task (task : value) : M unit :=
  try_except "Error deleting task from workflow" tt (delete_task_body task).

(** [filepath or self.<attribute>]. *)
Definition path_or (filepath : option string) (name : string)
    (attribute : BaseWorkflow -> option string) : M string :=
  if truthy_path filepath then ret (default EmptyString filepath)
  else fun w =>
         match attribute (self w) with
         | Some p => (Returned p, w)
         | None => (Raised (AttributeError name), w)
         end.

(** One element of the ["tasks"] list that [save_workflow_state] writes. *)
Definition task_record (l : loc) : M pyval :=
  let task := VTask l in
  d <- getattr "description" description task ;;
  a <- getattr "args" args task ;;
  k <- getattr "kwargs" kwargs task ;;
  r <- getattr "result" result task ;;
  h <- getattr "history" history task ;;
  ret (PDict [("description", d); ("args", a); ("kwargs", k);
              ("result", r); ("history", h)]).

Definition get_max_loops : M pyval :=
  fun w =>
    match max_loops (self w) with
    | Some m => (Returned m, w)
    | None => (Raised (AttributeError "max_loops"), w)
    end.

Definition save_workflow_state_body (filepath : option string) : M unit :=
  filepath <- path_or filepath "saved_state_filepath" saved_state_filepath ;;
  open_w filepath ;;
  ts <- get_tasks ;;
  records <- map_M task_record ts ;;
  m <- get_max_loops ;;
  let state := PDict [("tasks", PList records); ("max_loops", m)] in
  json_dump state filepath.

(** The default of the parameter is ["sequential_workflow_state.json"]. *)
Definition save_workflow_state (filepath : option string) : M unit :=
  try_except "Error saving workflow state" tt (save_workflow_state_body filepath).

(** One iteration of the loop of [load_workflow_state]: the keyword
    arguments of [Task(...)] are evaluated in the order written. *)
Definition load_task (task_state : pyval) : M unit :=
  d <- subscript task_state "description" ;;
  a <- subscript task_state "agent" ;;
  ar <- subscript task_state "args" ;;
  k <- subscript task_state "kwargs" ;;
  r <- subscript task_state "result" ;;
  h <- subscript task_state "history" ;;
  task <- new_task (mkTask d a ar k r h) ;;
  ts <- get_tasks ;;
  put_tasks (ts ++ [task]).

(** Up to and including the evaluation of [state["max_loops"]]. *)
Definition load_source (filepath : option string) : M (pyval * pyval) :=
  filepath <- path_or filepath "restore_state_filepath" restore_state_filepath ;;
  state <- open_r_json_load filepath ;;
  m <- subscript state "max_loops" ;;
  ret (state, m).

(** From the assignment to [self.max_loops] on. *)
Definition load_apply (state m : pyval) : M unit :=
  modify (fun w => with_self (with_max_loops (Some m) (self w)) w) ;;
  put_tasks [] ;;
  ts <- subscript state "tasks" ;;
  items <- py_iter ts ;;
  for_each items load_task.

Definition load_workflow_state_body (filepath : option string) : M unit :=
  sm <- load_source filepath ;;
  load_apply (fst sm) (snd sm).

Definition load_workflow_state (filepath : option string) : M unit :=
  try_except "Error loading workflow state" tt (load_workflow_state_body filepath).

(** ** [extract_tool_commands] *)

(** [strip_prefix p s] is what follows [p] in [s] when [s] starts with [p]. *)
Fixpoint strip_prefix (p s : string) : option string :=
  match p, s with
  | EmptyString, _ => Some s
  | String a p', String b s' => if Ascii.eqb a b then strip_prefix p' s' else None
  | String _ _, EmptyString => None
  end.

Definition fence : string := "```".
Definition opening : string := "```json".

(** The shortest prefix of [s] that is followed by a closing fence. *)
Fixpoint up_to_fence (s : string) : option string :=
  match strip_prefix fence s with
  | Some _ => Some EmptyString
  | None =>
      match s with
      | EmptyString => None
      | String c rest => option_map (String c) (up_to_fence rest)
      end
  end.

(** The pattern [```json(.+?)```] with [re.DOTALL], tried at the start of
    [s]: the group is lazy, takes at least one character, and any
    character (a newline too) may be in it. *)
Definition match_here (s : string) : option string :=
  match strip_prefix opening s with
  | Some (String c rest) => option_map (String c) (up_to_fence rest)
  | _ => None
  end.

(** [re.findall]: left to right, each match starting where the previous
    one ended; [skip] counts the characters of a match still to be passed
    over. *)
Fixpoint findall_from (skip : nat) (s : string) : list string :=
  match s with
  | EmptyString => []
  | String _ rest =>
      match skip with
      | S k => findall_from k rest
      | O =>
          match match_here s with
          | Some group =>
              group :: findall_from
                         (String.length opening + String.length group + String.length fence - 1)
                         rest
          | None => findall_from 0 rest
          end
      end
  end.

Definition findall (text : string) : list string := findall_from 0 text.

Section extract.

(** [json.loads], the decoder of the standard library: [None] when it
    raises. *)
Variable json_loads : string -> option pyval.

Definition loads (s : string) : M pyval :=
  match json_loads s with
  | Some v => ret v
  | None => raise JSONDecodeError
  end.

(** [x.append(x)]: only a list has the method. *)
Definition append_to_itself (x : pyval) : M unit :=
  match x with
  | PList _ => ret tt
  | _ => raise (AttributeError "append")
  end.

(** The body of the loop.  The assignment rebinds [json_commands], the
    name of the accumulator, to the decoded block, and [append] is then
    called on that value with itself as argument. *)
Definition parse_block (block : string) : M unit :=
  try_except "Error parsing JSON command" tt
    (json_commands <- loads block ;;
     append_to_itself json_commands).

(** The function ends without a [return] statement. *)
Definition extract_tool_commands (text : string) : M pyval :=
  let matches := findall text in
  for_each matches parse_block ;;
  ret PNone.

End extract.

(** ** Vocabulary of the statements *)

(** The same world with another [task_pool] list. *)
Definition retarget (tp : list loc) (w : world) : world :=
  with_self (with_task_pool tp (self w)) w.

(** A computation that neither reads nor writes [task_pool]: run with any
    other [task_pool], it does the same and leaves that list in place. *)
Definition ignores_task_pool {A : Type} (m : M A) : Prop :=
  forall tp w, m (retarget tp w) = (fst (m w), retarget tp (snd (m w))).

(** Everything of a world but what was printed. *)
Definition same_state (w w' : world) : Prop :=
  store w = store w' /\ self w = self w' /\ disk w = disk w'.

(** Every element of [ts] refers to a task of the store. *)
Definition holds_tasks (st : list Task) (ts : list loc) : Prop :=
  Forall (fun l => is_Some (st !! l)) ts.


(** [w'] is [w] with [n] new tasks at the end of the store and their
    references at the end of [tasks]. *)
Definition grown (n : nat) (w w' : world) : Prop :=
  exists ts new,
    tasks (self w) = Some ts /\ length new = n /\
    w' = with_self (with_tasks (Some (ts ++ seq (length (store w)) n)) (self w))
           (with_store (store w ++ new) w).

(** What the loop of [reset] makes of the store: results are cleared in
    list order, up to the first element that is not a task. *)
Fixpoint clear_results (ts : list loc) (st : list Task) : outcome unit * list Task :=
  match ts with
  | [] => (Returned tt, st)
  | l :: rest =>
      match st !! l with
      | Some t => clear_results rest (<[l := set_result PNone t]> st)
      | None => (Raised (AttributeError "result"), st)
      end
  end.

(** The record [save_workflow_state] writes for a task. *)
Definition record_of (t : Task) : pyval :=
  PDict [("description", description t); ("args", args t); ("kwargs", kwargs t);
         ("result", result t); ("history", history t)].

Definition task_serialisable (t : Task) : bool :=
  serialisable (description t) && serialisable (args t) && serialisable (kwargs t) &&
  serialisable (result t) && serialisable (history t).

(** The records of the tasks that [ts] refers to, in order. *)
Definition records_of (st : list Task) (ts : list loc) : list pyval :=
  omap (fun l => record_of <$> st !! l) ts.

(** The document [save_workflow_state] builds. *)
Definition saved_document (st : list Task) (ts : list loc) (m : pyval) : pyval :=
  PDict [("tasks", PList (records_of st ts)); ("max_loops", m)].

(** Every element of [ts] refers to a task whose saved fields [json] can
    write. *)
Definition saveable (st : list Task) (ts : list loc) : Prop :=
  Forall (fun l => exists t, st !! l = Some t /\ task_serialisable t = true) ts.

(** ** Sample worlds *)

Definition weather : Task :=
  mkTask (PStr "fetch-weather") (PObj 0) (PList []) (PDict [])
         (PStr "sunny") (PList [PStr "asked"; PStr "answered"]).

Definition report : Task :=
  mkTask (PStr "build-report") (PObj 0) (PList [PInt 2]) (PDict [("style", PStr "short")])
         PNone (PList []).

Definition no_files : filesystem := mkFs ∅ ∅.

(** Two tasks in [tasks], none in [task_pool], one pass. *)
Definition two_tasks : world :=
  mkWorld [weather; report]
          (mkWorkflow [] (Some [0; 1]) (Some (PInt 1)) None None)
          no_files [].

(** A workflow on which only [BaseWorkflow.__init__] has run. *)
Definition fresh : world :=
  mkWorld [weather] (mkWorkflow [] None None None None) no_files [].

(** A state file with seven passes and two records: the first has every
    field [load_workflow_state] reads, the second has no ["args"]. *)
Definition damaged_state : pyval :=
  PDict [("tasks",
          PList [PDict [("description", PStr "plan"); ("agent", PNone);
                        ("args", PList []); ("kwargs", PDict []);
                        ("result", PStr "done"); ("history", PList [])];
                 PDict [("description", PStr "ship"); ("agent", PNone)]]);
         ("max_loops", PInt 7)].

Definition two_tasks_and_file : world :=
  with_disk (write_file "state.json" (FDoc damaged_state) no_files) two_tasks.

(** A state file with three passes and one complete record. *)
Definition good_state : pyval :=
  PDict [("tasks",
          PList [PDict [("description", PStr "plan"); ("agent", PNone);
                        ("args", PList []); ("kwargs", PDict []);
                        ("result", PStr "done"); ("history", PList [])]]);
         ("max_loops", PInt 3)].

Definition two_tasks_and_good_file : world :=
  with_disk (write_file "good.json" (FDoc good_state) no_files) two_tasks.

(** ** More of [BaseWorkflow] *)

(** The text of the banner [add_objective_to_workflow] prints (in green,
    bold and underlined): a line break, the indentation of the source
    and the message. *)
Definition objective_banner : string :=
  String (Ascii.ascii_of_nat 10)
    "                    Adding Objective to Workflow...".

(** The [try] block of [add_objective_to_workflow(task, **kwargs)] after
    the banner.  The keyword arguments of [Task(...)] are evaluated in
    the order written, [list(...)] goes through what it is given; the
    class supplies [result=None] and [history=[]], as the [repr] in the
    docstring of [delete_task] shows. *)
Definition add_objective_to_workflow_body (task : pyval)
    (kwargs : list (string * pyval)) : M unit :=
  a <- subscript (PDict kwargs) "agent" ;;
  ar <- subscript (PDict kwargs) "args" ;;
  items <- py_iter ar ;;
  k <- subscript (PDict kwargs) "kwargs" ;;
  task <- new_task (mkTask task a (PList items) k PNone (PList [])) ;;
  ts <- get_tasks ;;
  put_tasks (ts ++ [task]).

(** [add_objective_to_workflow]: what is printed first, paired with the
    run of the guarded block.  The banner is plain text, not an error
    report, so it is kept apart from the reports of [stdout]. *)
Definition add_objective_to_workflow (task : pyval) (kwargs : list (string * pyval))
  : world -> string * (outcome unit * world) :=
  fun w =>
    (objective_banner,
     try_except "Error adding objective to workflow" tt
       (add_objective_to_workflow_body task kwargs) w).

(** [__str__] and [__repr__] have the same body:
    [f"Workflow with {len(self.task_pool)} tasks"]. *)
Definition __str__ (w : world) : string :=
  "Workflow with "
  ++ NilZero.string_of_uint (Nat.to_uint (length (task_pool (self w))))
  ++ " tasks".

Definition __repr__ (w : world) : string :=
  "Workflow with "
  ++ NilZero.string_of_uint (Nat.to_uint (length (task_pool (self w))))
  ++ " tasks".

(** ** The rest of [tool_utils] *)

Section tools.

(** Modelled from the spec: the tool classes ([swarms/tools/tool.py]) and
    [scrape_tool_func_docs] are not among the sources.  A tool is any
    object with a [name], a string; running it, printing its result and
    scraping its documentation are left to the environment. *)
Variable Tool : Type.
Variable name : Tool -> string.
Variable run : Tool -> pyval -> M pyval.
Variable show : pyval -> M unit.
Variable scrape_tool_func_docs : Tool -> M pyval.
Variable json_loads : string -> option pyval.

Fixpoint tool_find_by_name (tool_name : string) (tools : list Tool) : option Tool :=
  match tools with
  | [] => None
  | tool :: rest =>
      if String.eqb (name tool) tool_name then Some tool
      else tool_find_by_name tool_name rest
  end.

(** A call [tool_find_by_name(...)] as Python binds it: both parameters
    are required, so a call without [tools] raises before the body runs.
    A name that is not a string equals the name of no tool. *)
Definition call_tool_find_by_name (tool_name : pyval) (tools : option (list Tool))
  : M (option Tool) :=
  match tools with
  | None =>
      raise (TypeError
        "tool_find_by_name() missing 1 required positional argument: 'tools'")
  | Some ts =>
      match tool_name with
      | PStr s => ret (tool_find_by_name s ts)
      | _ => ret None
      end
  end.

(** [execute_tools(tool_name, params)]: the lookup is called with the
    name alone. *)
Definition execute_tools (tool_name params : pyval) : M unit :=
  tool <- call_tool_find_by_name tool_name None ;;
  match tool with
  | Some t =>
      tool_result <- run t params ;;
      show tool_result
  | None => ret tt
  end.

(** [d.get(k, default)]: only a mapping has the method. *)
Definition get (d : pyval) (k : string) (dflt : pyval) : M pyval :=
  match d with
  | PDict kvs =>
      match dict_get k kvs with
      | Some v => ret v
      | None => ret dflt
      end
  | _ => raise (AttributeError "get")
  end.

(** [parse_and_execute_tools(response)]; the key of the parameters is
    spelt ["parmas"] in the source. *)
Definition parse_and_execute_tools (response : string) : M unit :=
  json_commands <- extract_tool_commands json_loads response ;;
  commands <- py_iter json_commands ;;
  for_each commands (fun command =>
    tool_name <- get command "tool" PNone ;;
    params <- get command "parmas" (PDict []) ;;
    execute_tools tool_name params).

(** The loop of [parse_tool_docs].  [docs] is bound by the assignment in
    the body, to what [list.append] returns, which is [None] (here [tt]):
    before the first iteration the name is unbound. *)
Fixpoint parse_tool_docs_loop (tools : list Tool) (tool_docs : list pyval)
    (docs : option unit) : M (option unit) :=
  match tools with
  | [] => ret docs
  | tool :: rest =>
      d <- scrape_tool_func_docs tool ;;
      let tool_docs := tool_docs ++ [d] in
      let docs := Some tt in
      parse_tool_docs_loop rest tool_docs docs
  end.

(** How a call of [parse_tool_docs] ends: with a string, with the
    [UnboundLocalError] of reading a name never assigned, or with what
    the scraper raised. *)
Inductive docs_outcome : Type :=
| DocsReturned (s : string)
| DocsUnboundLocalError (variable : string)
| DocsRaised (e : exn).

(** [parse_tool_docs(tools)], ending in [return str(docs)]. *)
Definition parse_tool_docs (tools : list Tool) : world -> docs_outcome * world :=
  fun w =>
    match parse_tool_docs_loop tools [] None w with
    | (Returned (Some tt), w') => (DocsReturned "None", w')
    | (Returned None, w') => (DocsUnboundLocalError "docs", w')
    | (Raised e, w') => (DocsRaised e, w')
    end.

End tools.

(** ** [get_system_info] *)

(** What the calls of [platform], [socket] and [uuid] answer on a host,
    and [system_info()] of [swarms.telemetry.sys_info], which is not
    among the sources.  Resolving a host name can fail. *)
Record host : Type := mkHost {
  platform_system : string;
  platform_release : string;
  platform_version : string;
  platform_machine : string;
  gethostname : string;
  gethostbyname : string -> option string;
  getnode : Z;
  platform_processor : string;
  platform_python_version : string;
  system_info : pyval
}.

(** [range(start, stop, step)] for a positive step. *)
Definition py_range (start stop step : Z) : list Z :=
  map (fun i => (start + Z.of_nat i * step)%Z)
      (seq 0 (Z.to_nat ((stop - start + step - 1) / step))).

(** ["{:02x}".format(v)] for [v >= 0]: lower-case hexadecimal, padded
    with a zero to two characters. *)
Definition format_02x (v : Z) : string :=
  let digits := HexadecimalString.NilZero.string_of_uint (N.to_hex_uint (Z.to_N v)) in
  if Nat.ltb (String.length digits) 2 then String "0" digits else digits.

(** [sep.join(parts)]. *)
Fixpoint join (sep : string) (parts : list string) : string :=
  match parts with
  | [] => EmptyString
  | [x] => x
  | x :: rest => x +:+ sep +:+ join sep rest
  end.

(** The value under ["mac_address"]. *)
Definition mac_address (h : host) : string :=
  join ":"
    (rev (map (fun elements =>
                 format_02x (Z.land (Z.shiftr (getnode h) elements) 255))
              (py_range 0 (2 * 6) 8))).

(** [get_system_info()]: [None] when resolving the host name raises. *)
Definition get_system_info (h : host) : option pyval :=
  match gethostbyname h (gethostname h) with
  | None => None
  | Some ip =>
      Some (PDict [("platform", PStr (platform_system h));
                   ("platform_release", PStr (platform_release h));
                   ("platform_version", PStr (platform_version h));
                   ("architecture", PStr (platform_machine h));
                   ("hostname", PStr (gethostname h));
                   ("ip_address", PStr ip);
                   ("mac_address", PStr (mac_address h));
                   ("processor", PStr (platform_processor h));
                   ("python_version", PStr (platform_python_version h));
                   ("Misc", system_info h)])
  end.

(** A host whose network card has the address 12:34:56:78:90:ab. *)
Definition sample_host : host :=
  mkHost "Linux" "6.1" "1" "x86_64" "box" (fun _ => Some "127.0.0.1")
         20015998341291 "x86_64" "3.11" PNone.

(** ** More vocabulary *)

(** [d[k]] on a mapping keyed by values. *)
Fixpoint getitem (k : pyval) (d : list (pyval * pyval)) : option pyval :=
  match d with
  | [] => None
  | (k', v) :: rest => if py_eq k' k then Some v else getitem k rest
  end.

Definition is_str (v : pyval) : Prop := exists s, v = PStr s.

(** Every element of [ts] refers to a task described by a string. *)
Definition described_by_strings (st : list Task) (ts : list loc) : Prop :=
  Forall (fun l => exists t, st !! l = Some t /\ is_str (description t)) ts.

(** The task [load_workflow_state] builds from a record that has the six
    keys it reads. *)
Definition task_of_record (r : pyval) : option Task :=
  match r with
  | PDict kvs =>
      match dict_get "description" kvs, dict_get "agent" kvs, dict_get "args" kvs,
            dict_get "kwargs" kvs, dict_get "result" kvs, dict_get "history" kvs with
      | Some d, Some a, Some ar, Some k, Some r, Some h => Some (mkTask d a ar k r h)
      | _, _, _, _, _, _ => None
      end
  | _ => None
  end.

(** The error report of [extract_tool_commands] for a block, if any: the
    block does not decode, or decodes to something that is not a list. *)
Definition block_report (json_loads : string -> option pyval) (block : string)
  : option diagnostic :=
  match json_loads block with
  | None => Some (Diag "Error parsing JSON command" JSONDecodeError)
  | Some (PList _) => None
  | Some _ => Some (Diag "Error parsing JSON command" (AttributeError "append"))
  end.

(** What the name [task] denotes after a loop [for task in ts] that ran
    to its end: the last element, or what it denoted before when there
    was none. *)
Definition after_loop (task : value) (ts : list loc) : value :=
  match last ts with
  | Some l => VTask l
  | None => task
  end.


(** What one more task adds to the mapping [get_task_results] builds. *)
Definition add_result (st : list Task) (acc : list (pyval * pyval)) (l : loc)
  : list (pyval * pyval) :=
  match st !! l with
  | Some t => setitem (description t) (result t) acc
  | None => acc
  end.

(** What [filepath or attribute] evaluates to, when the attribute is
    there if needed. *)
Definition resolve_path (filepath attribute : option string) : option string :=
  if truthy_path filepath then filepath else attribute.

(** The course of the [try] block of [save_workflow_state], read off the
    store, the attributes and the paths that can be opened: how it ends,
    and what it leaves in which file, if it got to open one. *)
Definition save_plan (filepath : option string) (st : list Task) (o : BaseWorkflow)
    (openable : string -> bool) : outcome unit * option (string * fcontent) :=
  match resolve_path filepath (saved_state_filepath o) with
  | None => (Raised (AttributeError "saved_state_filepath"), None)
  | Some path =>
      if openable path then
        match tasks o with
        | None => (Raised (AttributeError "tasks"), Some (path, FBroken))
        | Some ts =>
            if forallb (fun l => bool_decide (is_Some (st !! l))) ts then
              match max_loops o with
              | None => (Raised (AttributeError "max_loops"), Some (path, FBroken))
              | Some m =>
                  if serialisable (saved_document st ts m)
                  then (Returned tt, Some (path, FDoc (saved_document st ts m)))
                  else (Raised (TypeError "Object is not JSON serializable"),
                        Some (path, FBroken))
              end
            else (Raised (AttributeError "description"), Some (path, FBroken))
        end
      else (Raised (OSError path), None)
  end.

Definition leave_file (what : option (string * fcontent)) (w : world) : world :=
  match what with
  | Some (path, c) => with_disk (write_file path c (disk w)) w
  | None => w
  end.

Definition backtick : ascii := Ascii.ascii_of_nat 96.

(** No character of [s] is a backtick. *)
Fixpoint no_backtick (s : string) : bool :=
  match s with
  | EmptyString => true
  | String c rest => negb (Ascii.eqb c backtick) && no_backtick rest
  end.

(** ** One list under two names *)

(** [self.task_pool.append], [self.task_pool.extend], [self.tasks.append]
    and [self.tasks.remove] change a list object, and the change shows
    under every name of that object; [self.tasks = ...] gives the name
    [tasks] another list and leaves the old one as it is.  An [instance]
    is a world together with the one fact that decides what such a change
    reaches: whether [self.tasks] and [self.task_pool] are one list
    object. *)
Record instance : Type := mkInstance {
  state : world;
  same_list : bool
}.

(** One list has one content. *)
Definition well_formed (i : instance) : Prop :=
  same_list i = true -> tasks (self (state i)) = Some (task_pool (self (state i))).

(** After a change made through [self.task_pool], what [self.tasks] shows
    when it is the same list. *)
Definition show_in_tasks (w : world) : world :=
  with_self (with_tasks (Some (task_pool (self w))) (self w)) w.

(** After a change made through [self.tasks], what [self.task_pool] shows
    when it is the same list. *)
Definition show_in_task_pool (w : world) : world :=
  match tasks (self w) with
  | Some ts => retarget ts w
  | None => w
  end.

(** What a call [add(task, tasks)] appends. *)
Definition added (task : option loc) (tasks : option (list loc)) : list loc :=
  match task with
  | Some t => [t]
  | None => default [] tasks
  end.

(** Whether a computation ends without raising. *)
Definition returns {A : Type} (m : M A) (w : world) : bool :=
  match fst (m w) with
  | Returned _ => true
  | Raised _ => false
  end.

(** An element of a pool on which no attribute can be read or set. *)
Definition takes_no_attributes (st : list Task) (l : loc) : Prop := st !! l = None.

Module InPlace.

(** A method that changes no list and binds no attribute to one. *)
Definition on_state {A : Type} (m : M A) (i : instance) : outcome A * instance :=
  (fst (m (state i)), mkInstance (snd (m (state i))) (same_list i)).

(** A method that changes the list of [self.task_pool] in place. *)
Definition on_task_pool {A : Type} (m : M A) (i : instance) : outcome A * instance :=
  (fst (m (state i)),
   mkInstance (if same_list i then show_in_tasks (snd (m (state i)))
               else snd (m (state i)))
              (same_list i)).

(** A method that changes the list of [self.tasks] in place. *)
Definition on_tasks {A : Type} (m : M A) (i : instance) : outcome A * instance :=
  (fst (m (state i)),
   mkInstance (if same_list i then show_in_task_pool (snd (m (state i)))
               else snd (m (state i)))
              (same_list i)).

(** A method that assigns a new list to [self.tasks] once the part
    [before] the assignment has run without raising: from then on the
    two attributes are two lists. *)
Definition rebinding {A B : Type} (before : M B) (m : M A) (i : instance)
  : outcome A * instance :=
  (fst (m (state i)),
   mkInstance (snd (m (state i))) (same_list i && negb (returns before (state i)))).

(** [self.task_pool.append(task)], [self.task_pool.extend(tasks)]. *)
Definition add (task : option loc) (tasks : option (list loc))
  : instance -> outcome unit * instance :=
  on_task_pool (add task tasks).

(** [task.result = None] on the elements: the lists stay as they are. *)
Definition reset : instance -> outcome unit * instance := on_state reset.

Definition get_task_results
  : instance -> outcome (option (list (pyval * pyval))) * instance :=
  on_state get_task_results.

(** [self.tasks = [...]] is reached when the comprehension has been
    evaluated. *)
Definition remove_task (task : value) : instance -> outcome unit * instance :=
  rebinding (remove_task_body task) (remove_task task).

(** [task.kwargs.update(updates)]: the lists stay as they are. *)
Definition update_task (task : value) (updates : list (string * pyval))
  : instance -> outcome unit * instance :=
  on_state (update_task task updates).

(** [self.tasks.remove(task)]. *)
Definition delete_task (task : value) : instance -> outcome unit * instance :=
  on_tasks (delete_task task).

Definition save_workflow_state (filepath : option string)
  : instance -> outcome unit * instance :=
  on_state (save_workflow_state filepath).

(** [self.tasks.append(task)]. *)
Definition add_objective_to_workflow (task : pyval) (kwargs : list (string * pyval))
    (i : instance) : string * (outcome unit * instance) :=
  (fst (add_objective_to_workflow task kwargs (state i)),
   on_tasks (fun w => snd (add_objective_to_workflow task kwargs w)) i).

(** [self.tasks = []] is reached when the file has been opened and read
    and [state["max_loops"]] evaluated; the tasks of the file are then
    appended to the new list. *)
Definition load_workflow_state (filepath : option string)
  : instance -> outcome unit * instance :=
  rebinding (load_source filepath) (load_workflow_state filepath).

End InPlace.

(** One task in the store, none registered, and [tasks] bound to the
    list of [task_pool]. *)
Definition one_list : instance :=
  mkInstance (mkWorld [weather] (mkWorkflow [] (Some []) (Some (PInt 1)) None None)
                      no_files [])
             true.

(** The same workflow with a list of its own under [tasks]. *)
Definition two_lists_apart : instance := mkInstance (state one_list) false.

(** Two tasks with a result each and, between them in [tasks], a
    reference to something that is not a task of the store. *)
Definition finished_report : Task := set_result (PStr "two pages") report.

Definition odd_pool : world :=
  mkWorld [weather; finished_report]
          (mkWorkflow [] (Some [0; 5; 1]) (Some (PInt 1)) None None)
          no_files [].

(** * Properties *)

(** ** Worlds *)

Lemma with_store_id w : with_store (store w) w = w.
Proof. by destruct w. Qed.

Lemma retarget_id w : retarget (task_pool (self w)) w = w.
Proof. by destruct w as [? [] ? ?]. Qed.

Lemma put_tasks_id w ts :
  tasks (self w) = Some ts -> put_tasks ts w = (Returned tt, w).
Proof.
  destruct w as [st [tp o m sp rp] d out]; simpl; intros ->; reflexivity.
Qed.

Lemma same_state_refl w : same_state w w.
Proof. by repeat split. Qed.

Lemma same_state_stdout out w : same_state (with_stdout out w) w.
Proof. by repeat split. Qed.

(** ** Sequencing *)

Lemma bind_returned {A B : Type} (m : M A) (k : A -> M B) w a w' :
  m w = (Returned a, w') -> bind m k w = k a w'.
Proof. unfold bind. by intros ->. Qed.

Lemma bind_raised {A B : Type} (m : M A) (k : A -> M B) w e w' :
  m w = (Raised e, w') -> bind m k w = (Raised e, w').
Proof. unfold bind. by intros ->. Qed.

Lemma try_except_returned {A : Type} ctx (d : A) (m : M A) w a w' :
  m w = (Returned a, w') -> try_except ctx d m w = (Returned a, w').
Proof. unfold try_except. by intros ->. Qed.

Lemma try_except_raised {A : Type} ctx (d : A) (m : M A) w e w' :
  m w = (Raised e, w') ->
  try_except ctx d m w = (Returned d, with_stdout (stdout w' ++ [Diag ctx e]) w').
Proof. unfold try_except. by intros ->. Qed.

(** ** [reset] *)

Section reset_facts.

Implicit Types (ts : list loc) (st : list Task) (l : loc) (t : Task).

(** The loop of [reset] touches the store only, as [clear_results] says. *)
Lemma reset_loop_store ts w :
  for_each ts (fun l => setattr "result" (set_result PNone) (VTask l)) w
  = (fst (clear_results ts (store w)),
     with_store (snd (clear_results ts (store w))) w).
Proof.
  revert w; induction ts as [|l ts IH]; intros w; simpl.
  - by rewrite with_store_id.
  - unfold bind, setattr. destruct (store w !! l) as [t|] eqn:E; simpl.
    + rewrite IH. reflexivity.
    + by rewrite with_store_id.
Qed.

Lemma clear_results_length ts st :
  length (snd (clear_results ts st)) = length st.
Proof.
  revert st; induction ts as [|l ts IH]; intros st; simpl; [done|].
  destruct (st !! l); simpl; [|done]. by rewrite IH, length_insert.
Qed.

(** Each object is left alone or has its result cleared. *)
Lemma clear_results_lookup ts st i :
  snd (clear_results ts st) !! i = st !! i \/
  snd (clear_results ts st) !! i = set_result PNone <$> st !! i.
Proof.
  revert st; induction ts as [|l ts IH]; intros st; simpl; [by left|].
  destruct (st !! l) as [t|] eqn:E; simpl; [|by left].
  destruct (decide (l = i)) as [->|Hne].
  - right. destruct (IH (<[i := set_result PNone t]> st)) as [-> | ->];
      rewrite list_lookup_insert_eq by (by eapply lookup_lt_Some);
      by rewrite E.
  - destruct (IH (<[l := set_result PNone t]> st)) as [-> | ->];
      rewrite list_lookup_insert_ne by done; auto.
Qed.

(** On a list of tasks the loop runs to its end and clears exactly the
    results of the objects listed. *)
Lemma clear_results_tasks ts st :
  holds_tasks st ts ->
  fst (clear_results ts st) = Returned tt /\
  forall i, snd (clear_results ts st) !! i
            = if bool_decide (i ∈ ts) then set_result PNone <$> st !! i else st !! i.
Proof.
  unfold holds_tasks.
  revert st; induction ts as [|l ts IH]; intros st Hts; cbn [clear_results].
  - split; [done|]. intros i. case_bool_decide as H; [by apply elem_of_nil in H|done].
  - apply Forall_cons in Hts as [[t E] Hts]. rewrite E.
    destruct (IH (<[l := set_result PNone t]> st)) as [Hret Hlk].
    { eapply Forall_impl; [exact Hts|]. simpl. intros j Hj.
      apply lookup_lt_is_Some. rewrite length_insert.
      by apply lookup_lt_is_Some. }
    split; [done|]. intros i. rewrite Hlk.
    destruct (decide (l = i)) as [->|Hne].
    + rewrite list_lookup_insert_eq by (by eapply lookup_lt_Some).
      rewrite E. rewrite (bool_decide_eq_true_2 (i ∈ i :: ts)) by apply list_elem_of_here.
      by case_bool_decide.
    + rewrite list_lookup_insert_ne by done.
      destruct (decide (i ∈ ts)) as [Hin|Hnin].
      * rewrite !bool_decide_eq_true_2; [done|by apply list_elem_of_further|done].
      * rewrite !bool_decide_eq_false_2; [done| |done].
        intros [?|?]%elem_of_cons; congruence.
Qed.

(** A second pass over the same list changes nothing more. *)
Lemma clear_results_idem ts st :
  clear_results ts (snd (clear_results ts st)) = clear_results ts st.
Proof.
  revert st; induction ts as [|l ts IH]; intros st; cbn [clear_results]; [done|].
  destruct (st !! l) as [t|] eqn:E; cbn [snd clear_results]; [|by rewrite E].
  set (st1 := <[l := set_result PNone t]> st).
  assert (Hl : snd (clear_results ts st1) !! l = Some (set_result PNone t)).
  { destruct (clear_results_lookup ts st1 l) as [-> | ->];
      unfold st1; rewrite list_lookup_insert_eq by (by eapply lookup_lt_Some);
      done. }
  rewrite Hl. change (set_result PNone (set_result PNone t)) with (set_result PNone t).
  rewrite (list_insert_id _ _ _ Hl). apply IH.
Qed.

Lemma reset_world w :
  reset w =
  match tasks (self w) with
  | None => (Returned tt,
             with_stdout (stdout w ++ [Diag "Error resetting workflow" (AttributeError "tasks")]) w)
  | Some ts =>
      let r := clear_results ts (store w) in
      (Returned tt,
       match fst r with
       | Returned _ => with_store (snd r) w
       | Raised e =>
           with_stdout (stdout w ++ [Diag "Error resetting workflow" e])
                       (with_store (snd r) w)
       end)
  end.
Proof.
  unfold reset, try_except, reset_body, bind, get_tasks.
  destruct (tasks (self w)) as [ts|]; [|done].
  rewrite reset_loop_store. simpl.
  by destruct (clear_results ts (store w)) as [[[]|e] st'].
Qed.

End reset_facts.

(** C7.  On a pool of tasks, [reset] sets the result of every task of the
    pool to [None]; the description, agent, args, kwargs and history of
    every task are what they were (so the history keeps its length and
    order), tasks outside the pool keep their result too, and the
    attributes of the workflow are untouched. *)
Theorem reset_clears_results_only w ts :
  tasks (self w) = Some ts ->
  holds_tasks (store w) ts ->
  fst (reset w) = Returned tt /\
  self (snd (reset w)) = self w /\
  length (store (snd (reset w))) = length (store w) /\
  forall l t, store w !! l = Some t ->
    exists t', store (snd (reset w)) !! l = Some t' /\
      description t' = description t /\ agent t' = agent t /\
      args t' = args t /\ kwargs t' = kwargs t /\ history t' = history t /\
      result t' = if bool_decide (l ∈ ts) then PNone else result t.
Proof.
  intros Hts Hok. rewrite reset_world, Hts. cbn zeta.
  destruct (clear_results_tasks ts (store w) Hok) as [Hret Hlk].
  rewrite Hret. cbn [fst snd]. split; [done|]. split; [done|].
  split; [apply clear_results_length|].
  intros l t Hl. cbn [store with_store]. rewrite Hlk, Hl.
  case_bool_decide; eexists; (split; [reflexivity|]); by repeat split.
Qed.

Lemma reset_clears_results_only_witness :
  tasks (self two_tasks) = Some [0; 1] /\
  holds_tasks (store two_tasks) [0; 1] /\
  fst (reset two_tasks) = Returned tt /\
  self (snd (reset two_tasks)) = self two_tasks.
Proof.
  assert (H1 : tasks (self two_tasks) = Some [0; 1]) by reflexivity.
  assert (H2 : holds_tasks (store two_tasks) [0; 1]).
  { repeat constructor; eexists; reflexivity. }
  split; [exact H1|]. split; [exact H2|].
  destruct (reset_clears_results_only two_tasks [0; 1] H1 H2) as (Hr & Hs & _).
  split; [exact Hr | exact Hs].
Defined.

(** C8.  [reset] is idempotent: the store, the attributes of the workflow
    and the files are the same after two calls in a row as after one. *)
Theorem reset_idempotent w :
  same_state (snd (reset (snd (reset w)))) (snd (reset w)).
Proof.
  rewrite (reset_world w).
  destruct (tasks (self w)) as [ts|] eqn:Hts; cbn [snd].
  - cbn zeta. pose proof (clear_results_idem ts (store w)) as Hidem.
    destruct (clear_results ts (store w)) as [o st'] eqn:Hr. cbn [fst snd] in *.
    destruct o as [[]|e]; rewrite reset_world; cbn [self with_store with_stdout tasks store];
      rewrite Hts; cbn zeta; cbn [store with_store with_stdout]; rewrite Hidem; cbn [fst snd];
      by repeat split.
  - rewrite reset_world. cbn [self with_stdout]. rewrite Hts. by repeat split.
Qed.

(** ** [update_task], [delete_task], [remove_task] *)

Section lookup_by_description.

Implicit Types (ts : list loc) (task : value) (w : world).

(** A description, being data, is never [==] to a task object. *)
Lemma description_never_equals_task st d l :
  value_eq st (VData d) (VTask l) = false.
Proof. reflexivity. Qed.

(** The loop of [update_task] always ends in its [else] branch or on an
    element without a description; the world is as before. *)
Lemma update_task_loop_raises updates ts task w :
  exists e, update_task_loop updates task ts w = (Raised e, w).
Proof.
  revert task; induction ts as [|l ts IH]; intros task; cbn [update_task_loop].
  - eexists; reflexivity.
  - unfold bind at 1. unfold getattr.
    destruct (store w !! l) as [t|]; [|eexists; reflexivity].
    unfold bind, equal. rewrite description_never_equals_task. apply IH.
Qed.

Lemma delete_task_loop_raises ts task w :
  exists e, delete_task_loop task ts w = (Raised e, w).
Proof.
  revert task; induction ts as [|l ts IH]; intros task; cbn [delete_task_loop].
  - eexists; reflexivity.
  - unfold bind at 1. unfold getattr.
    destruct (store w !! l) as [t|]; [|eexists; reflexivity].
    unfold bind, equal. rewrite description_never_equals_task. apply IH.
Qed.

Lemma update_task_body_raises task updates w :
  exists e, update_task_body task updates w = (Raised e, w).
Proof.
  unfold update_task_body, bind, get_tasks.
  destruct (tasks (self w)); [apply update_task_loop_raises | eexists; reflexivity].
Qed.

Lemma delete_task_body_raises task w :
  exists e, delete_task_body task w = (Raised e, w).
Proof.
  unfold delete_task_body, bind, get_tasks.
  destruct (tasks (self w)); [apply delete_task_loop_raises | eexists; reflexivity].
Qed.

(** A filter whose condition holds wherever it can be evaluated keeps the
    whole list. *)
Lemma filter_M_keeps_all {A : Type} (keep : A -> M bool) :
  (forall x w, keep x w = (Returned true, w) \/ exists e, keep x w = (Raised e, w)) ->
  forall xs w,
    filter_M keep xs w = (Returned xs, w) \/ exists e, filter_M keep xs w = (Raised e, w).
Proof.
  intros Hkeep xs w; induction xs as [|x xs IH]; cbn [filter_M].
  - by left.
  - destruct (Hkeep x w) as [Hx | [e Hx]].
    + rewrite !(bind_returned _ _ _ _ _ Hx).
      destruct IH as [Hxs | [e Hxs]].
      * rewrite !(bind_returned _ _ _ _ _ Hxs). by left.
      * rewrite !(bind_raised _ _ _ _ _ Hxs). right. by exists e.
    + rewrite !(bind_raised _ _ _ _ _ Hx). right. by exists e.
Qed.

(** The [try] block of [remove_task] returns with nothing changed, or
    raises with nothing changed. *)
Lemma remove_task_body_world task w :
  remove_task_body task w = (Returned tt, w) \/
  exists e, remove_task_body task w = (Raised e, w).
Proof.
  unfold remove_task_body.
  destruct (tasks (self w)) as [ts|] eqn:Hts.
  - assert (Hget : get_tasks w = (Returned ts, w)) by (unfold get_tasks; by rewrite Hts).
    rewrite !(bind_returned _ _ _ _ _ Hget).
    match goal with
    | |- context [filter_M ?k ts] =>
        destruct (filter_M_keeps_all k) with (xs := ts) (w := w) as [Hf | [e Hf]]
    end.
    + intros l w0. unfold getattr.
      destruct (store w0 !! l) as [t|] eqn:Hl.
      * left. unfold bind, equal. by rewrite Hl.
      * right. exists (AttributeError "description"). unfold bind. by rewrite Hl.
    + rewrite !(bind_returned _ _ _ _ _ Hf). left. by apply put_tasks_id.
    + rewrite !(bind_raised _ _ _ _ _ Hf). right. by exists e.
  - assert (Hget : get_tasks w = (Raised (AttributeError "tasks"), w))
      by (unfold get_tasks; by rewrite Hts).
    rewrite !(bind_raised _ _ _ _ _ Hget). right. by eexists.
Qed.

End lookup_by_description.

(** C2.  [update_task] never merges anything: whatever the description and
    the pool, the call reports an error and the store, the attributes and
    the files are those of before the call.  The comparison is made
    between a description and the task that carries it. *)
Theorem update_task_changes_nothing task updates w :
  exists e,
    update_task task updates w
    = (Returned tt,
       with_stdout (stdout w ++ [Diag "Error updating task in workflow" e]) w).
Proof.
  destruct (update_task_body_raises task updates w) as [e He].
  exists e. unfold update_task. by rewrite (try_except_raised _ _ _ _ _ _ He).
Qed.

(** Scenario B of the specification: the task is there, and its keyword
    arguments stay empty. *)
Example update_task_fetch_weather :
  update_task (VData (PStr "fetch-weather")) [("retries", PInt 3)] two_tasks
  = (Returned tt,
     with_stdout
       [Diag "Error updating task in workflow" (ValueError_not_found (VTask 1))]
       two_tasks).
Proof. reflexivity. Qed.

(** C3.  Neither [remove_task] nor [delete_task] removes a task: after
    either call the store, the attributes (the pool among them) and the
    files are those of before the call, whatever the description. *)
Theorem remove_task_and_delete_task_remove_nothing task w :
  same_state (snd (remove_task task w)) w /\
  same_state (snd (delete_task task w)) w.
Proof.
  split.
  - unfold remove_task.
    destruct (remove_task_body_world task w) as [H | [e H]].
    + rewrite (try_except_returned _ _ _ _ _ _ H). apply same_state_refl.
    + rewrite (try_except_raised _ _ _ _ _ _ H). apply same_state_stdout.
  - unfold delete_task.
    destruct (delete_task_body_raises task w) as [e H].
    rewrite (try_except_raised _ _ _ _ _ _ H). apply same_state_stdout.
Qed.

Example remove_task_fetch_weather :
  remove_task (VData (PStr "fetch-weather")) two_tasks = (Returned tt, two_tasks).
Proof. reflexivity. Qed.

Example delete_task_fetch_weather :
  delete_task (VData (PStr "fetch-weather")) two_tasks
  = (Returned tt,
     with_stdout
       [Diag "Error deleting task from workflow" (ValueError_not_found (VTask 1))]
       two_tasks).
Proof. reflexivity. Qed.

(** ** [add] *)





(** The claim C6 fails on the empty sequence: a sequence is supplied, and
    [add] raises instead of extending the pool by its (zero) tasks. *)
Lemma add_empty_sequence_raises :
  add None (Some []) two_tasks = (Raised ValueError_no_task, two_tasks).
Proof. reflexivity. Qed.

(** C6, amended.  Called with neither a task nor a sequence, or with an
    empty sequence, [add] raises [ValueError] and changes nothing.  Called
    with a task it appends that task to [task_pool] (a sequence given
    along with it is ignored); called with a non-empty sequence and no
    task it extends [task_pool] by the tasks of the sequence, in order. *)
Theorem add_cases w :
  add None None w = (Raised ValueError_no_task, w) /\
  add None (Some []) w = (Raised ValueError_no_task, w) /\
  (forall t tasks,
     add (Some t) tasks w = (Returned tt, retarget (task_pool (self w) ++ [t]) w)) /\
  (forall t ts,
     add None (Some (t :: ts)) w
     = (Returned tt, retarget (task_pool (self w) ++ t :: ts) w)) /\
  (forall tp, task_pool (self (retarget tp w)) = tp /\
              tasks (self (retarget tp w)) = tasks (self w) /\
              max_loops (self (retarget tp w)) = max_loops (self w) /\
              store (retarget tp w) = store w).
Proof. repeat split. Qed.

(** ** [extract_tool_commands] *)

Section extract_facts.

Variable json_loads : string -> option pyval.

Lemma parse_block_returns block w :
  exists w', parse_block json_loads block w = (Returned tt, w').
Proof.
  unfold parse_block, try_except.
  destruct (bind _ _ w) as [[[]|e] w']; by eexists.
Qed.

Lemma parse_blocks_return blocks w :
  exists w', for_each blocks (parse_block json_loads) w = (Returned tt, w').
Proof.
  revert w; induction blocks as [|b blocks IH]; intros w; cbn [for_each].
  - by eexists.
  - destruct (parse_block_returns b w) as [w1 H1].
    rewrite (bind_returned _ _ _ _ _ H1). apply IH.
Qed.

(** C9.  Whatever the text and whatever the decoder makes of its fenced
    blocks, [extract_tool_commands] returns [None], not a collection of
    commands: the function has no [return] statement (and inside the loop
    the accumulator is overwritten by each decoded block). *)
Theorem extract_tool_commands_returns_none text w :
  fst (extract_tool_commands json_loads text w) = Returned PNone.
Proof.
  unfold extract_tool_commands.
  destruct (parse_blocks_return (findall text) w) as [w' H].
  by rewrite (bind_returned _ _ _ _ _ H).
Qed.

End extract_facts.

(** Scenario C of the specification: both blocks are found, a decoder
    accepts the first only. *)
Example findall_scenario_C :
  findall "run ```json[1, 2]``` then ```json[1, ``` stop" = ["[1, 2]"; "[1, "].
Proof. reflexivity. Qed.

Example extract_scenario_C :
  extract_tool_commands
    (fun s => if String.eqb s "[1, 2]" then Some (PList [PInt 1; PInt 2]) else None)
    "run ```json[1, 2]``` then ```json[1, ``` stop" fresh
  = (Returned PNone,
     with_stdout [Diag "Error parsing JSON command" JSONDecodeError] fresh).
Proof. reflexivity. Qed.

(** ** [task_pool] and [tasks] *)

Section two_lists.

Create HintDb frame discriminated.

Lemma ignores_ret {A : Type} (a : A) : ignores_task_pool (ret a).
Proof. by intros tp w. Qed.

Lemma ignores_raise {A : Type} e : ignores_task_pool (@raise A e).
Proof. by intros tp w. Qed.

Lemma ignores_bind {A B : Type} (m : M A) (k : A -> M B) :
  ignores_task_pool m -> (forall a, ignores_task_pool (k a)) ->
  ignores_task_pool (bind m k).
Proof.
  intros Hm Hk tp w. unfold bind. rewrite Hm.
  destruct (m w) as [[a|e] w']; cbn [fst snd]; [apply Hk | reflexivity].
Qed.

Lemma ignores_try_except {A : Type} ctx (d : A) (m : M A) :
  ignores_task_pool m -> ignores_task_pool (try_except ctx d m).
Proof.
  intros Hm tp w. unfold try_except. rewrite Hm.
  by destruct (m w) as [[a|e] w'].
Qed.

Lemma ignores_for_each {A : Type} (xs : list A) (body : A -> M unit) :
  (forall x, ignores_task_pool (body x)) -> ignores_task_pool (for_each xs body).
Proof.
  intros Hb. induction xs as [|x xs IH]; cbn [for_each].
  - apply ignores_ret.
  - apply ignores_bind; [apply Hb | intros _; apply IH].
Qed.

Lemma ignores_map_M {A B : Type} (f : A -> M B) (xs : list A) :
  (forall x, ignores_task_pool (f x)) -> ignores_task_pool (map_M f xs).
Proof.
  intros Hf. induction xs as [|x xs IH]; cbn [map_M].
  - apply ignores_ret.
  - apply ignores_bind; [apply Hf | intros y].
    apply ignores_bind; [apply IH | intros ys; apply ignores_ret].
Qed.

Lemma ignores_filter_M {A : Type} (keep : A -> M bool) (xs : list A) :
  (forall x, ignores_task_pool (keep x)) -> ignores_task_pool (filter_M keep xs).
Proof.
  intros Hk. induction xs as [|x xs IH]; cbn [filter_M].
  - apply ignores_ret.
  - apply ignores_bind; [apply Hk | intros b].
    apply ignores_bind; [apply IH | intros ys; apply ignores_ret].
Qed.

(** The primitives, [task_pool] being no part of what they read or write. *)
Ltac primitive :=
  intros ? [? [? ? ? ? ?] ? ?]; cbn;
  repeat (case_match; cbn); reflexivity.

Lemma ignores_get_tasks : ignores_task_pool get_tasks.
Proof. unfold get_tasks. primitive. Qed.

Lemma ignores_put_tasks ts : ignores_task_pool (put_tasks ts).
Proof. unfold put_tasks, modify. primitive. Qed.

Lemma ignores_get_max_loops : ignores_task_pool get_max_loops.
Proof. unfold get_max_loops. primitive. Qed.

Lemma ignores_set_max_loops m :
  ignores_task_pool (modify (fun w => with_self (with_max_loops m (self w)) w)).
Proof. unfold modify. primitive. Qed.

Lemma ignores_gets_store : ignores_task_pool (gets store).
Proof. unfold gets. primitive. Qed.

Lemma ignores_getattr name field x : ignores_task_pool (getattr name field x).
Proof. unfold getattr. primitive. Qed.

Lemma ignores_setattr name update x : ignores_task_pool (setattr name update x).
Proof. unfold setattr. primitive. Qed.

Lemma ignores_new_task t : ignores_task_pool (new_task t).
Proof. unfold new_task. primitive. Qed.

Lemma ignores_equal a b : ignores_task_pool (equal a b).
Proof. unfold equal. primitive. Qed.

Lemma ignores_subscript v k : ignores_task_pool (subscript v k).
Proof. unfold subscript, ret, raise. primitive. Qed.

Lemma ignores_py_iter v : ignores_task_pool (py_iter v).
Proof. unfold py_iter, ret, raise. primitive. Qed.

Lemma ignores_open_w path : ignores_task_pool (open_w path).
Proof. unfold open_w. primitive. Qed.

Lemma ignores_json_dump v path : ignores_task_pool (json_dump v path).
Proof. unfold json_dump. primitive. Qed.

Lemma ignores_open_r_json_load path : ignores_task_pool (open_r_json_load path).
Proof. unfold open_r_json_load. primitive. Qed.

Lemma ignores_saved_path fp :
  ignores_task_pool (path_or fp "saved_state_filepath" saved_state_filepath).
Proof. unfold path_or, ret. primitive. Qed.

Lemma ignores_restore_path fp :
  ignores_task_pool (path_or fp "restore_state_filepath" restore_state_filepath).
Proof. unfold path_or, ret. primitive. Qed.

Hint Resolve ignores_ret ignores_raise ignores_get_tasks ignores_put_tasks
  ignores_get_max_loops ignores_set_max_loops ignores_gets_store ignores_getattr
  ignores_setattr ignores_new_task ignores_equal ignores_subscript ignores_py_iter
  ignores_open_w ignores_json_dump ignores_open_r_json_load ignores_saved_path
  ignores_restore_path : frame.

(** Straight-line code made of such pieces. *)
Ltac frame :=
  repeat first
    [ apply ignores_try_except
    | apply ignores_bind; [|intros ?]
    | apply ignores_for_each; intros ?
    | apply ignores_map_M; intros ?
    | apply ignores_filter_M; intros ?
    | solve [auto with frame]
    | progress cbn zeta
    | case_match ].

Lemma ignores_results_of ts acc : ignores_task_pool (results_of ts acc).
Proof.
  revert acc; induction ts as [|l ts IH]; intros acc; cbn [results_of]; frame.
Qed.

Lemma ignores_kwargs_update task updates :
  ignores_task_pool (kwargs_update task updates).
Proof. unfold kwargs_update. frame. Qed.

Lemma ignores_tasks_remove task : ignores_task_pool (tasks_remove task).
Proof. unfold tasks_remove. frame. Qed.

Hint Resolve ignores_results_of ignores_kwargs_update ignores_tasks_remove : frame.

Lemma ignores_update_task_loop updates task ts :
  ignores_task_pool (update_task_loop updates task ts).
Proof.
  revert task; induction ts as [|l ts IH]; intros task; cbn [update_task_loop]; frame.
Qed.

Lemma ignores_delete_task_loop task ts :
  ignores_task_pool (delete_task_loop task ts).
Proof.
  revert task; induction ts as [|l ts IH]; intros task; cbn [delete_task_loop]; frame.
Qed.

Hint Resolve ignores_update_task_loop ignores_delete_task_loop : frame.

Lemma ignores_reset : ignores_task_pool reset.
Proof. unfold reset, reset_body. frame. Qed.

Lemma ignores_get_task_results : ignores_task_pool get_task_results.
Proof. unfold get_task_results, get_task_results_body. frame. Qed.

Lemma ignores_remove_task task : ignores_task_pool (remove_task task).
Proof. unfold remove_task, remove_task_body. frame. Qed.

Lemma ignores_update_task task updates : ignores_task_pool (update_task task updates).
Proof. unfold update_task, update_task_body. frame. Qed.

Lemma ignores_delete_task task : ignores_task_pool (delete_task task).
Proof. unfold delete_task, delete_task_body. frame. Qed.

Lemma ignores_save_workflow_state fp : ignores_task_pool (save_workflow_state fp).
Proof.
  unfold save_workflow_state, save_workflow_state_body, task_record. frame.
Qed.

Lemma ignores_load_workflow_state fp : ignores_task_pool (load_workflow_state fp).
Proof.
  unfold load_workflow_state, load_workflow_state_body, load_source, load_apply,
    load_task.
  frame.
Qed.

(** What ignores [task_pool] leaves it as it was. *)
Lemma ignores_keeps_task_pool {A : Type} (m : M A) w :
  ignores_task_pool m -> task_pool (self (snd (m w))) = task_pool (self w).
Proof.
  intros Hm. specialize (Hm (task_pool (self w)) w).
  rewrite retarget_id in Hm.
  destruct (m w) as [o w']. cbn [fst snd] in *.
  injection Hm as Hw. rewrite Hw at 1. reflexivity.
Qed.


End two_lists.

(** ** [save_workflow_state] and [load_workflow_state] *)

Section persistence.

Implicit Types (ts : list loc) (w : world) (v : pyval).

Lemma subscript_world v k w :
  (exists x, subscript v k w = (Returned x, w)) \/
  (exists e, subscript v k w = (Raised e, w)).
Proof.
  destruct v; cbn [subscript]; try (right; eexists; reflexivity).
  destruct (dict_get k kvs); [left | right]; eexists; reflexivity.
Qed.

Lemma py_iter_world v w :
  (exists xs, py_iter v w = (Returned xs, w)) \/
  (exists e, py_iter v w = (Raised e, w)).
Proof.
  destruct v; cbn [py_iter];
    try (right; eexists; reflexivity); left; eexists; reflexivity.
Qed.

Lemma path_or_world fp name attribute w :
  (exists p, path_or fp name attribute w = (Returned p, w)) \/
  (exists e, path_or fp name attribute w = (Raised e, w)).
Proof.
  unfold path_or. destruct (truthy_path fp); [left; eexists; reflexivity|].
  destruct (attribute (self w)); [left | right]; eexists; reflexivity.
Qed.

Lemma open_r_json_load_world p w :
  (exists v, open_r_json_load p w = (Returned v, w)) \/
  (exists e, open_r_json_load p w = (Raised e, w)).
Proof.
  unfold open_r_json_load. destruct (can_open (disk w) p);
    [|right; eexists; reflexivity].
  destruct (files (disk w) !! p) as [[v|]|];
    [left | right | right]; eexists; reflexivity.
Qed.

(** Reading the file and its [max_loops] changes nothing. *)
Lemma load_source_world fp w o w' : load_source fp w = (o, w') -> w' = w.
Proof.
  unfold load_source.
  destruct (path_or_world fp "restore_state_filepath" restore_state_filepath w)
    as [[p Hp] | [e Hp]];
    [rewrite (bind_returned _ _ _ _ _ Hp) | rewrite (bind_raised _ _ _ _ _ Hp); congruence].
  destruct (open_r_json_load_world p w) as [[v Hv] | [e Hv]];
    [rewrite (bind_returned _ _ _ _ _ Hv) | rewrite (bind_raised _ _ _ _ _ Hv); congruence].
  destruct (subscript_world v "max_loops" w) as [[m Hm] | [e Hm]];
    [rewrite (bind_returned _ _ _ _ _ Hm) | rewrite (bind_raised _ _ _ _ _ Hm); congruence].
  unfold ret. congruence.
Qed.

Lemma grown_zero w ts : tasks (self w) = Some ts -> grown 0 w w.
Proof.
  intros H. exists ts, []. split; [done|]. split; [done|].
  destruct w as [st [tp o m sp rp] d out]. cbn in *. subst o.
  by rewrite !app_nil_r.
Qed.

Lemma grown_step n w w1 w2 : grown 1 w w1 -> grown n w1 w2 -> grown (S n) w w2.
Proof.
  intros (ts & new & Hts & Hlen & ->) (ts1 & new1 & Hts1 & Hlen1 & ->).
  destruct new as [|t [|]]; try discriminate. clear Hlen.
  cbn in Hts1. injection Hts1 as <-.
  exists ts, (t :: new1). split; [done|]. split; [cbn; by rewrite Hlen1|].
  cbn. rewrite length_app. cbn. rewrite <- !app_assoc. cbn.
  by rewrite Nat.add_1_r.
Qed.

(** One [Task(...)] and [append], or an exception before anything is
    built. *)
Lemma load_task_world item w ts :
  tasks (self w) = Some ts ->
  (exists w', load_task item w = (Returned tt, w') /\ grown 1 w w') \/
  (exists e, load_task item w = (Raised e, w)).
Proof.
  intros Hts. unfold load_task.
  repeat match goal with
  | |- context [bind (subscript item ?k) _ w] =>
      let x := fresh "x" in let H := fresh "H" in let e := fresh "e" in
      destruct (subscript_world item k w) as [[x H] | [e H]];
      [rewrite (bind_returned _ _ _ _ _ H)
      |rewrite (bind_raised _ _ _ _ _ H); right; by exists e]
  end.
  left. eexists. split; [unfold bind, new_task, get_tasks; cbn; rewrite Hts; reflexivity|].
  eexists ts, [_]. split; [done|]. split; [done|].
  reflexivity.
Qed.

Lemma load_tasks_world items w ts :
  tasks (self w) = Some ts ->
  exists o n w', for_each items load_task w = (o, w') /\ grown n w w' /\
                 n <= length items.
Proof.
  revert w ts; induction items as [|item items IH]; intros w ts Hts; cbn [for_each].
  - exists (Returned tt), 0, w. split; [done|]. split; [by eapply grown_zero | done].
  - destruct (load_task_world item w ts Hts) as [(w1 & H1 & G1) | (e & H1)].
    + rewrite (bind_returned _ _ _ _ _ H1).
      assert (exists ts1, tasks (self w1) = Some ts1) as [ts1 Hts1].
      { destruct G1 as (? & ? & _ & _ & ->). by eexists. }
      destruct (IH w1 ts1 Hts1) as (o & n & w2 & H2 & G2 & Hn).
      exists o, (S n), w2. split; [done|]. split; [by eapply grown_step|].
      cbn. lia.
    + rewrite (bind_raised _ _ _ _ _ H1).
      exists (Raised e), 0, w. split; [done|]. split; [by eapply grown_zero | cbn; lia].
Qed.

End persistence.

(** The claim C4 fails on a file whose second record lacks a field: the
    error is printed, not raised, and by then [max_loops] is the file's
    and the pool is the one task rebuilt from the first record. *)
Lemma load_failure_changes_workflow :
  fst (load_workflow_state_body (Some "state.json") two_tasks_and_file)
    = Raised (KeyError "args") /\
  fst (load_workflow_state (Some "state.json") two_tasks_and_file) = Returned tt /\
  tasks (self two_tasks_and_file) = Some [0; 1] /\
  tasks (self (snd (load_workflow_state (Some "state.json") two_tasks_and_file)))
    = Some [2] /\
  max_loops (self two_tasks_and_file) = Some (PInt 1) /\
  max_loops (self (snd (load_workflow_state (Some "state.json") two_tasks_and_file)))
    = Some (PInt 7).
Proof. vm_compute. by repeat split. Qed.

(** C4, amended.  A failing [load_workflow_state] never raises: it prints
    the error and returns.  If the failure comes before [max_loops] has
    been read (no usable path, a file that cannot be opened or decoded, a
    document without [max_loops]) the world is as before the call but for
    the diagnostic.  If it comes later, [max_loops] is already the
    document's and [tasks] holds the tasks rebuilt so far, new objects at
    the end of the store; older objects, [task_pool] and the files are
    untouched. *)
Theorem load_failure_effect fp w e w' :
  load_workflow_state_body fp w = (Raised e, w') ->
  load_workflow_state fp w
    = (Returned tt,
       with_stdout (stdout w' ++ [Diag "Error loading workflow state" e]) w') /\
  ((load_source fp w = (Raised e, w) /\ w' = w) \/
   (exists state m n,
      load_source fp w = (Returned (state, m), w) /\
      grown n (with_self (with_tasks (Some []) (with_max_loops (Some m) (self w))) w)
            w')).
Proof.
  intros Hbody. split.
  { unfold load_workflow_state. by rewrite (try_except_raised _ _ _ _ _ _ Hbody). }
  unfold load_workflow_state_body in Hbody.
  destruct (load_source fp w) as [[[state m]|e0] w0] eqn:Hsrc;
    pose proof (load_source_world _ _ _ _ Hsrc) as ->.
  2:{ rewrite (bind_raised _ _ _ _ _ Hsrc) in Hbody. injection Hbody as -> ->.
      by left. }
  rewrite (bind_returned _ _ _ _ _ Hsrc) in Hbody. cbn [fst snd] in Hbody.
  right. exists state, m.
  set (w1 := with_self (with_tasks (Some []) (with_max_loops (Some m) (self w))) w).
  assert (Hts1 : tasks (self w1) = Some []) by reflexivity.
  unfold load_apply in Hbody.
  change (bind (modify _) _ w) with
    (bind (subscript state "tasks")
          (fun ts => bind (py_iter ts) (fun items => for_each items load_task)) w1)
    in Hbody.
  destruct (subscript_world state "tasks" w1) as [[v Hv] | [e1 Hv]].
  2:{ rewrite (bind_raised _ _ _ _ _ Hv) in Hbody. injection Hbody as -> <-.
      exists 0. split; [done|]. by eapply grown_zero. }
  rewrite (bind_returned _ _ _ _ _ Hv) in Hbody.
  destruct (py_iter_world v w1) as [[items Hi] | [e1 Hi]].
  2:{ rewrite (bind_raised _ _ _ _ _ Hi) in Hbody. injection Hbody as -> <-.
      exists 0. split; [done|]. by eapply grown_zero. }
  rewrite (bind_returned _ _ _ _ _ Hi) in Hbody.
  destruct (load_tasks_world items w1 [] Hts1) as (o & n & w2 & Hloop & G & _).
  rewrite Hloop in Hbody. injection Hbody as -> ->.
  exists n. by split.
Qed.

Lemma load_failure_effect_witness :
  load_workflow_state_body (Some "state.json") two_tasks_and_file
    = (Raised (KeyError "args"),
       with_self (mkWorkflow [] (Some [2]) (Some (PInt 7)) None None)
         (with_store
            [weather; report;
             mkTask (PStr "plan") PNone (PList []) (PDict []) (PStr "done") (PList [])]
            two_tasks_and_file)) /\
  fst (load_workflow_state (Some "state.json") two_tasks_and_file) = Returned tt.
Proof.
  assert (H : load_workflow_state_body (Some "state.json") two_tasks_and_file
              = (Raised (KeyError "args"),
                 with_self (mkWorkflow [] (Some [2]) (Some (PInt 7)) None None)
                   (with_store
                      [weather; report;
                       mkTask (PStr "plan") PNone (PList []) (PDict []) (PStr "done")
                              (PList [])]
                      two_tasks_and_file))) by (vm_compute; reflexivity).
  split; [exact H|].
  destruct (load_failure_effect _ _ _ _ H) as [Hload _].
  rewrite Hload. reflexivity.
Defined.

Section round_trip.

Implicit Types (ts : list loc) (st : list Task) (w : world).

Lemma getattr_task name field l t w :
  store w !! l = Some t -> getattr name field (VTask l) w = (Returned (field t), w).
Proof. intros H. unfold getattr. by rewrite H. Qed.

Lemma task_record_world l t w :
  store w !! l = Some t -> task_record l w = (Returned (record_of t), w).
Proof.
  intros H. unfold task_record. cbn zeta.
  by rewrite !(bind_returned _ _ _ _ _ (getattr_task _ _ l t w H)).
Qed.

Lemma task_records_world ts w :
  holds_tasks (store w) ts ->
  map_M task_record ts w = (Returned (records_of (store w) ts), w).
Proof.
  unfold holds_tasks, records_of.
  induction 1 as [|l ts [t Hl] _ IH]; cbn [map_M omap list_omap]; [done|].
  rewrite (bind_returned _ _ _ _ _ (task_record_world l t w Hl)).
  rewrite (bind_returned _ _ _ _ _ IH). by rewrite Hl.
Qed.

Lemma serialisable_record t : serialisable (record_of t) = task_serialisable t.
Proof.
  unfold task_serialisable. cbn.
  destruct (serialisable (description t)), (serialisable (args t)),
    (serialisable (kwargs t)), (serialisable (result t)),
    (serialisable (history t)); reflexivity.
Qed.

Lemma saveable_holds_tasks st ts : saveable st ts -> holds_tasks st ts.
Proof.
  intros H. eapply Forall_impl; [exact H|]. intros l (t & Hl & _). by exists t.
Qed.

Lemma serialisable_records st ts :
  saveable st ts -> forallb serialisable (records_of st ts) = true.
Proof.
  unfold saveable, records_of.
  induction 1 as [|l ts (t & Hl & Ht) _ IH]; cbn [omap list_omap]; [done|].
  rewrite Hl. cbn [fmap option_fmap option_map forallb].
  by rewrite serialisable_record, Ht, IH.
Qed.

Lemma can_open_path fs path :
  can_open fs path = true -> truthy_path (Some path) = true.
Proof. unfold can_open, truthy_path. by intros [? _]%andb_prop. Qed.

(** A save that meets no obstacle. *)
Lemma save_world w path ts m :
  tasks (self w) = Some ts -> saveable (store w) ts ->
  max_loops (self w) = Some m -> serialisable m = true ->
  can_open (disk w) path = true ->
  save_workflow_state (Some path) w
  = (Returned tt,
     with_disk (write_file path (FDoc (saved_document (store w) ts m))
                           (write_file path FBroken (disk w))) w).
Proof.
  intros Hts Hsave Hm Hser Hopen.
  unfold save_workflow_state. apply try_except_returned.
  unfold save_workflow_state_body.
  assert (H1 : path_or (Some path) "saved_state_filepath" saved_state_filepath w
               = (Returned path, w)).
  { unfold path_or. by rewrite (can_open_path _ _ Hopen). }
  rewrite (bind_returned _ _ _ _ _ H1).
  set (w1 := with_disk (write_file path FBroken (disk w)) w).
  assert (H2 : open_w path w = (Returned tt, w1)).
  { unfold open_w. by rewrite Hopen. }
  rewrite (bind_returned _ _ _ _ _ H2).
  assert (H3 : get_tasks w1 = (Returned ts, w1)).
  { unfold get_tasks. cbn. by rewrite Hts. }
  rewrite (bind_returned _ _ _ _ _ H3).
  rewrite (bind_returned _ _ _ _ _
             (task_records_world ts w1 (saveable_holds_tasks _ _ Hsave))).
  assert (H4 : get_max_loops w1 = (Returned m, w1)).
  { unfold get_max_loops. cbn. by rewrite Hm. }
  rewrite (bind_returned _ _ _ _ _ H4).
  unfold json_dump. cbn [serialisable].
  change (store w1) with (store w).
  rewrite (serialisable_records _ _ Hsave), Hser. reflexivity.
Qed.

(** Loading a document whose first record is one that
    [save_workflow_state] writes. *)
Lemma load_saved_record w path t records m :
  can_open (disk w) path = true ->
  files (disk w) !! path
  = Some (FDoc (PDict [("tasks", PList (record_of t :: records)); ("max_loops", m)])) ->
  load_workflow_state_body (Some path) w
  = (Raised (KeyError "agent"),
     with_self (with_tasks (Some []) (with_max_loops (Some m) (self w))) w).
Proof.
  intros Hopen Hfile.
  set (state := PDict [("tasks", PList (record_of t :: records)); ("max_loops", m)]).
  assert (H1 : path_or (Some path) "restore_state_filepath" restore_state_filepath w
               = (Returned path, w)).
  { unfold path_or. by rewrite (can_open_path _ _ Hopen). }
  assert (H2 : open_r_json_load path w = (Returned state, w)).
  { unfold open_r_json_load. by rewrite Hopen, Hfile. }
  assert (Hsrc : load_source (Some path) w = (Returned (state, m), w)).
  { unfold load_source.
    rewrite (bind_returned _ _ _ _ _ H1), (bind_returned _ _ _ _ _ H2).
    reflexivity. }
  unfold load_workflow_state_body. rewrite (bind_returned _ _ _ _ _ Hsrc).
  reflexivity.
Qed.

(** With nothing in the pool there is no record to trip over: the file
    written is read back, [max_loops] and the empty pool restored. *)
Lemma save_then_load_empty_pool w path m :
  tasks (self w) = Some [] ->
  max_loops (self w) = Some m -> serialisable m = true ->
  can_open (disk w) path = true ->
  load_workflow_state (Some path) (snd (save_workflow_state (Some path) w))
  = (Returned tt, snd (save_workflow_state (Some path) w)).
Proof.
  intros Hts Hm Hser Hopen.
  assert (Hsave : saveable (store w) []) by constructor.
  rewrite (save_world w path [] m Hts Hsave Hm Hser Hopen). cbn [snd].
  set (w1 := with_disk _ w).
  assert (Hfile : files (disk w1) !! path = Some (FDoc (saved_document (store w) [] m))).
  { unfold w1. cbn. apply lookup_insert_eq. }
  assert (H1 : path_or (Some path) "restore_state_filepath" restore_state_filepath w1
               = (Returned path, w1)).
  { unfold path_or. by rewrite (can_open_path _ _ Hopen). }
  assert (H2 : open_r_json_load path w1
               = (Returned (saved_document (store w) [] m), w1)).
  { unfold open_r_json_load. change (disk w1) with (disk w1).
    assert (Hopen1 : can_open (disk w1) path = true) by exact Hopen.
    by rewrite Hopen1, Hfile. }
  assert (Hsrc : load_source (Some path) w1
                 = (Returned (saved_document (store w) [] m, m), w1)).
  { unfold load_source.
    rewrite (bind_returned _ _ _ _ _ H1), (bind_returned _ _ _ _ _ H2).
    reflexivity. }
  unfold load_workflow_state. apply try_except_returned.
  unfold load_workflow_state_body. rewrite (bind_returned _ _ _ _ _ Hsrc).
  unfold load_apply, bind, modify, put_tasks. cbn.
  destruct w as [st [tp o ml sp rp] d out]. cbn in *. by subst.
Qed.

End round_trip.

(** C1.  Saving a non-empty pool and loading the file back does not
    reproduce the pool.  Even when nothing stands in the way of the save
    (the pool holds tasks whose fields JSON can carry, [max_loops] is
    set, the path can be opened), the document written has no ["agent"]
    in its records while [load_workflow_state] asks every record for one:
    the load stops at the first record with [KeyError], prints it, and
    leaves [max_loops] restored and the pool empty. *)
Theorem save_then_load_loses_the_pool w path l ls m :
  tasks (self w) = Some (l :: ls) ->
  saveable (store w) (l :: ls) ->
  max_loops (self w) = Some m -> serialisable m = true ->
  can_open (disk w) path = true ->
  let w1 := snd (save_workflow_state (Some path) w) in
  let w2 := snd (load_workflow_state (Some path) w1) in
  files (disk w1) !! path = Some (FDoc (saved_document (store w) (l :: ls) m)) /\
  stdout w1 = stdout w /\
  tasks (self w2) = Some [] /\
  max_loops (self w2) = Some m /\
  store w2 = store w /\
  stdout w2 = stdout w ++ [Diag "Error loading workflow state" (KeyError "agent")].
Proof.
  intros Hts Hsave Hm Hser Hopen. cbn zeta.
  rewrite (save_world w path (l :: ls) m Hts Hsave Hm Hser Hopen). cbn [snd].
  set (w1 := with_disk _ w).
  assert (Hfile : files (disk w1) !! path
                  = Some (FDoc (saved_document (store w) (l :: ls) m))).
  { unfold w1. cbn. apply lookup_insert_eq. }
  split; [exact Hfile|]. split; [done|].
  pose proof Hsave as Hsave'. apply Forall_cons in Hsave' as [(t & Hl & _) _].
  assert (Hopen1 : can_open (disk w1) path = true) by exact Hopen.
  unfold saved_document, records_of in Hfile. cbn [omap list_omap] in Hfile.
  rewrite Hl in Hfile. cbn [fmap option_fmap option_map] in Hfile.
  unfold load_workflow_state.
  rewrite (try_except_raised _ _ _ _ _ _
             (load_saved_record w1 path t _ m Hopen1 Hfile)).
  by repeat split.
Qed.

Lemma save_then_load_loses_the_pool_witness :
  tasks (self two_tasks) = Some [0; 1] /\
  tasks (self (snd (load_workflow_state (Some "state.json")
                      (snd (save_workflow_state (Some "state.json") two_tasks)))))
    = Some [].
Proof.
  split; [reflexivity|].
  assert (Hsave : saveable (store two_tasks) [0; 1]).
  { repeat constructor; eexists; (split; [reflexivity|reflexivity]). }
  assert (Hopen : can_open (disk two_tasks) "state.json" = true) by (vm_compute; reflexivity).
  destruct (save_then_load_loses_the_pool two_tasks "state.json" 0 [1] (PInt 1)
              eq_refl Hsave eq_refl eq_refl Hopen) as (_ & _ & Hpool & _).
  exact Hpool.
Defined.

(** * Further properties *)

Lemma with_stdout_eq w : with_stdout (stdout w) w = w.
Proof. by destruct w. Qed.

(** ** Tools *)

Section tool_facts.

Variable Tool : Type.
Variable name : Tool -> string.
Variable run : Tool -> pyval -> M pyval.
Variable show : pyval -> M unit.
Variable scrape_tool_func_docs : Tool -> M pyval.
Variable json_loads : string -> option pyval.

(** X1.  [tool_find_by_name] returns the first tool of the list that has
    the name asked for: the tools before it have other names; it returns
    [None] exactly when no tool of the list has that name. *)
Theorem tool_find_by_name_first tool_name (tools : list Tool) :
  match tool_find_by_name Tool name tool_name tools with
  | Some t =>
      exists before after,
        tools = before ++ t :: after /\ name t = tool_name /\
        Forall (fun u => name u <> tool_name) before
  | None => Forall (fun u => name u <> tool_name) tools
  end.
Proof.
  induction tools as [|u tools IH]; cbn [tool_find_by_name].
  - constructor.
  - destruct (String.eqb (name u) tool_name) eqn:E.
    + apply String.eqb_eq in E. by exists [], tools.
    + apply String.eqb_neq in E.
      destruct (tool_find_by_name Tool name tool_name tools) as [t|].
      * destruct IH as (before & after & -> & Hn & Hb).
        exists (u :: before), after. split; [done|]. split; [done|].
        by constructor.
      * by constructor.
Qed.

(** The reports of the blocks of a text, in order. *)
Lemma parse_blocks_reports blocks w :
  for_each blocks (parse_block json_loads) w
  = (Returned tt,
     with_stdout (stdout w ++ omap (block_report json_loads) blocks) w).
Proof.
  revert w; induction blocks as [|b blocks IH]; intros w; cbn [for_each omap list_omap].
  - by rewrite app_nil_r, with_stdout_eq.
  - assert (Hb : parse_block json_loads b w
                 = (Returned tt,
                    match block_report json_loads b with
                    | Some d => with_stdout (stdout w ++ [d]) w
                    | None => w
                    end)).
    { unfold parse_block, try_except, bind, loads, block_report.
      destruct (json_loads b) as [[]|]; reflexivity. }
    rewrite (bind_returned _ _ _ _ _ Hb), IH.
    destruct (block_report json_loads b) as [d|]; [|done].
    cbn. by rewrite <- app_assoc.
Qed.

(** X2.  [extract_tool_commands] returns [None] and its only effect is
    one error report for each fenced block that does not decode to a
    list, in the order of the blocks; the store, the workflow and the
    files are untouched. *)
Theorem extract_tool_commands_effect text w :
  extract_tool_commands json_loads text w
  = (Returned PNone,
     with_stdout (stdout w ++ omap (block_report json_loads) (findall text)) w).
Proof.
  unfold extract_tool_commands.
  by rewrite (bind_returned _ _ _ _ _ (parse_blocks_reports (findall text) w)).
Qed.

(** X3.  [parse_and_execute_tools] executes no tool: for every response
    it raises [TypeError], because what [extract_tool_commands] returns
    cannot be iterated; and [execute_tools] itself raises [TypeError]
    for every name and parameters, the lookup being called without the
    list of tools.  Neither reaches [run]. *)
Theorem parse_and_execute_tools_raises response tool_name params w :
  parse_and_execute_tools Tool name run show json_loads response w
  = (Raised (TypeError "object is not iterable"),
     with_stdout (stdout w ++ omap (block_report json_loads) (findall response)) w) /\
  execute_tools Tool name run show tool_name params w
  = (Raised (TypeError
       "tool_find_by_name() missing 1 required positional argument: 'tools'"), w).
Proof.
  split; [|reflexivity].
  unfold parse_and_execute_tools.
  by rewrite (bind_returned _ _ _ _ _ (extract_tool_commands_effect response w)).
Qed.

Lemma parse_tool_docs_loop_bound tools docs_list w d w' :
  parse_tool_docs_loop Tool scrape_tool_func_docs tools docs_list (Some tt) w
  = (Returned d, w') -> d = Some tt.
Proof.
  revert docs_list w; induction tools as [|t tools IH]; intros docs_list w;
    cbn [parse_tool_docs_loop].
  - unfold ret. congruence.
  - unfold bind. destruct (scrape_tool_func_docs t w) as [[v|e] w1]; [|done].
    apply IH.
Qed.

(** X4.  [parse_tool_docs] never returns documentation.  On an empty list
    it fails with [UnboundLocalError]; on any other list it returns the
    string ["None"], unless the scraper raised. *)
Theorem parse_tool_docs_result (tools : list Tool) w :
  match fst (parse_tool_docs Tool scrape_tool_func_docs tools w) with
  | DocsReturned s => s = "None" /\ tools <> []
  | DocsUnboundLocalError variable => variable = "docs" /\ tools = []
  | DocsRaised _ => tools <> []
  end.
Proof.
  unfold parse_tool_docs. destruct tools as [|t tools]; [done|].
  cbn [parse_tool_docs_loop]. unfold bind.
  destruct (scrape_tool_func_docs t w) as [[v|e] w1]; [|done].
  destruct (parse_tool_docs_loop _ _ tools _ _ w1) as [[d|e] w2] eqn:E; [|done].
  apply parse_tool_docs_loop_bound in E as ->. done.
Qed.

End tool_facts.

(** ** The fenced blocks of a text *)

Section fences.

Implicit Types (s p r g : string) (c : ascii).

Lemma append_nil s : EmptyString +:+ s = s.
Proof. reflexivity. Qed.

Lemma append_cons c s1 s2 : String c s1 +:+ s2 = String c (s1 +:+ s2).
Proof. reflexivity. Qed.

Lemma append_assoc s1 s2 s3 : (s1 +:+ s2) +:+ s3 = s1 +:+ s2 +:+ s3.
Proof.
  induction s1 as [|c s1 IH]; [done|]. rewrite !append_cons. by f_equal.
Qed.

Lemma length_append s1 s2 :
  String.length (s1 +:+ s2) = String.length s1 + String.length s2.
Proof.
  induction s1 as [|c s1 IH]; [done|]. rewrite append_cons. cbn. by f_equal.
Qed.

Lemma strip_prefix_Some p s r : strip_prefix p s = Some r -> s = p +:+ r.
Proof.
  revert s; induction p as [|a p IH]; intros s; cbn [strip_prefix].
  - by intros [= ->].
  - destruct s as [|b s]; [done|].
    destruct (Ascii.eqb a b) eqn:E; [|done].
    apply Ascii.eqb_eq in E as ->. intros H.
    by rewrite append_cons, (IH _ H).
Qed.

Lemma up_to_fence_Some s g :
  up_to_fence s = Some g -> exists after, s = g +:+ fence +:+ after.
Proof.
  revert g; induction s as [|c s IH]; intros g; cbn [up_to_fence].
  - destruct (strip_prefix fence EmptyString) eqn:E; [discriminate E | done].
  - destruct (strip_prefix fence (String c s)) as [after|] eqn:E.
    + intros [= <-]. exists after. rewrite append_nil. by apply strip_prefix_Some.
    + destruct (up_to_fence s) as [g'|]; [|done].
      intros [= <-]. destruct (IH g' eq_refl) as [after ->]. by exists after.
Qed.

(** A match at the start of [s] spells opening, group, fence. *)
Lemma match_here_Some s g :
  match_here s = Some g ->
  g <> EmptyString /\ exists after, s = opening +:+ g +:+ fence +:+ after.
Proof.
  unfold match_here. destruct (strip_prefix opening s) as [[|c r]|] eqn:E; [done| |done].
  destruct (up_to_fence r) as [g'|] eqn:U; [|done].
  intros [= <-]. split; [done|].
  destruct (up_to_fence_Some _ _ U) as [after ->]. exists after.
  apply strip_prefix_Some in E. by rewrite E, append_cons.
Qed.

Lemma findall_from_sound skip s g :
  g ∈ findall_from skip s ->
  g <> EmptyString /\
  exists before after, s = before +:+ opening +:+ g +:+ fence +:+ after.
Proof.
  revert skip; induction s as [|c s IH]; intros skip; cbn [findall_from].
  - by intros ?%elem_of_nil.
  - assert (Hlater : forall k, g ∈ findall_from k s ->
              g <> EmptyString /\
              exists before after,
                String c s = before +:+ opening +:+ g +:+ fence +:+ after).
    { intros k Hk. destruct (IH k Hk) as (Hne & before & after & ->).
      split; [done|]. exists (String c before), after. by rewrite append_cons. }
    destruct skip as [|k]; [|apply Hlater].
    destruct (match_here (String c s)) as [group|] eqn:E; [|apply Hlater].
    intros [-> | Hin]%elem_of_cons; [|by eapply Hlater].
    destruct (match_here_Some _ _ E) as (Hne & after & ->).
    split; [done|]. exists EmptyString, after. by rewrite append_nil.
Qed.

(** X5.  Every block [findall] returns is not empty and stands in the
    text between an opening fence with the word json and a closing
    fence. *)
Theorem findall_sound text g :
  g ∈ findall text ->
  g <> EmptyString /\
  exists before after, text = before +:+ opening +:+ g +:+ fence +:+ after.
Proof. apply findall_from_sound. Qed.

Lemma findall_sound_witness :
  "[1, 2]" ∈ findall "run ```json[1, 2]``` then ```json[1, ``` stop" /\
  exists before after,
    "run ```json[1, 2]``` then ```json[1, ``` stop"
    = before +:+ opening +:+ "[1, 2]" +:+ fence +:+ after.
Proof.
  assert (H : "[1, 2]" ∈ findall "run ```json[1, 2]``` then ```json[1, ``` stop").
  { vm_compute. apply list_elem_of_here. }
  split; [exact H|].
  exact (proj2 (findall_sound _ _ H)).
Defined.

Lemma findall_from_skip s1 s2 :
  findall_from (String.length s1) (s1 +:+ s2) = findall_from 0 s2.
Proof.
  induction s1 as [|c s1 IH].
  - rewrite append_nil. by destruct s2.
  - rewrite append_cons. exact IH.
Qed.

Lemma strip_prefix_other p s c c' :
  Ascii.eqb c' c = false -> strip_prefix (String c p) (String c' s) = None.
Proof. intros H. cbn. by rewrite Ascii.eqb_sym, H. Qed.

Lemma findall_from_no_backtick s1 s2 :
  no_backtick s1 = true -> findall_from 0 (s1 +:+ s2) = findall_from 0 s2.
Proof.
  induction s1 as [|c s1 IH]; cbn [no_backtick]; [done|].
  intros [Hc Hs]%andb_prop. apply negb_true_iff in Hc.
  rewrite append_cons. cbn [findall_from]. unfold match_here, opening.
  change "```json" with (String backtick "``json").
  rewrite (strip_prefix_other _ _ _ _ Hc). by apply IH.
Qed.

Lemma up_to_fence_no_backtick r after :
  no_backtick r = true -> up_to_fence (r +:+ fence +:+ after) = Some r.
Proof.
  induction r as [|c r IH]; cbn [no_backtick].
  - intros _. reflexivity.
  - intros [Hc Hr]%andb_prop. apply negb_true_iff in Hc.
    rewrite append_cons. cbn [up_to_fence]. unfold fence at 1.
    change "```" with (String backtick "``").
    rewrite (strip_prefix_other _ _ _ _ Hc). by rewrite (IH Hr).
Qed.

(** X6.  A block written between an opening fence with the word json and
    a closing fence is found again: when neither the text before it nor
    the block has a backtick and the block is not empty, [findall]
    returns the block, followed by what it finds in the rest of the
    text. *)
Theorem findall_fenced before block after :
  no_backtick before = true -> no_backtick block = true -> block <> EmptyString ->
  findall (before +:+ opening +:+ block +:+ fence +:+ after)
  = block :: findall after.
Proof.
  intros Hb Hg Hne. unfold findall.
  rewrite (findall_from_no_backtick _ _ Hb).
  destruct block as [|c r]; [done|]. cbn [no_backtick] in Hg.
  apply andb_prop in Hg as [_ Hr].
  assert (Hm : match_here (opening +:+ String c r +:+ fence +:+ after)
               = Some (String c r)).
  { unfold match_here.
    change (strip_prefix opening (opening +:+ String c r +:+ fence +:+ after))
      with (Some (String c (r +:+ fence +:+ after))).
    cbv beta iota. by rewrite (up_to_fence_no_backtick _ _ Hr). }
  change (opening +:+ String c r +:+ fence +:+ after)
    with (String backtick ("``json" +:+ String c r +:+ fence +:+ after)) in *.
  cbn [findall_from]. rewrite Hm. f_equal.
  rewrite <- (findall_from_skip ("``json" +:+ String c r +:+ fence) after).
  rewrite !append_assoc. f_equal.
  rewrite !length_append. cbn. lia.
Qed.

Lemma findall_fenced_witness :
  findall ("Use " +:+ opening +:+ "[1, 2]" +:+ fence +:+ " now") = ["[1, 2]"].
Proof.
  rewrite (findall_fenced "Use " "[1, 2]" " now"); [reflexivity | reflexivity | reflexivity | discriminate].
Defined.

End fences.

(** ** [add_objective_to_workflow] *)

Section objectives.

Implicit Types (ts : list loc) (w : world) (kwargs : list (string * pyval)).

Lemma subscript_dict kvs k w :
  subscript (PDict kvs) k w
  = match dict_get k kvs with
    | Some x => (Returned x, w)
    | None => (Raised (KeyError k), w)
    end.
Proof. cbn [subscript]. by destruct (dict_get k kvs). Qed.

(** Followed under the name [tasks]: given an agent, arguments that can
    be listed and keyword arguments, the call makes one new task, with
    the description, agent, listed arguments and keyword arguments
    passed, no result and an empty history, and puts it last in the list
    of [tasks]. *)
Lemma add_objective_to_workflow_world task kwargs w ts a ar items k :
  tasks (self w) = Some ts ->
  dict_get "agent" kwargs = Some a ->
  dict_get "args" kwargs = Some ar ->
  py_iter ar w = (Returned items, w) ->
  dict_get "kwargs" kwargs = Some k ->
  add_objective_to_workflow task kwargs w
  = (objective_banner,
     (Returned tt,
      with_self (with_tasks (Some (ts ++ [length (store w)])) (self w))
        (with_store (store w ++ [mkTask task a (PList items) k PNone (PList [])]) w))).
Proof.
  intros Hts Ha Har Hit Hk. unfold add_objective_to_workflow. f_equal.
  apply try_except_returned. unfold add_objective_to_workflow_body.
  assert (H1 : subscript (PDict kwargs) "agent" w = (Returned a, w))
    by (by rewrite subscript_dict, Ha).
  assert (H2 : subscript (PDict kwargs) "args" w = (Returned ar, w))
    by (by rewrite subscript_dict, Har).
  assert (H3 : subscript (PDict kwargs) "kwargs" w = (Returned k, w))
    by (by rewrite subscript_dict, Hk).
  rewrite (bind_returned _ _ _ _ _ H1), (bind_returned _ _ _ _ _ H2),
    (bind_returned _ _ _ _ _ Hit), (bind_returned _ _ _ _ _ H3).
  unfold bind, new_task, get_tasks, put_tasks, modify. cbn. by rewrite Hts.
Qed.

(** X8.  When one of the keywords [agent], [args], [kwargs] is missing,
    [add_objective_to_workflow] builds no task: it reports one error and
    the store, the pool and the files are as before. *)
Theorem add_objective_to_workflow_missing_keyword task kwargs w :
  dict_get "agent" kwargs = None \/ dict_get "args" kwargs = None \/
  dict_get "kwargs" kwargs = None ->
  exists e,
    add_objective_to_workflow task kwargs w
    = (objective_banner,
       (Returned tt,
        with_stdout (stdout w ++ [Diag "Error adding objective to workflow" e]) w)).
Proof.
  intros Hmiss.
  assert (exists e, add_objective_to_workflow_body task kwargs w = (Raised e, w))
    as [e He].
  { unfold add_objective_to_workflow_body.
    unfold bind at 1. rewrite subscript_dict.
    destruct (dict_get "agent" kwargs) as [a|]; [|by eexists].
    unfold bind at 1. rewrite subscript_dict.
    destruct (dict_get "args" kwargs) as [ar|]; [|by eexists].
    unfold bind at 1.
    destruct (py_iter_world ar w) as [[items ->] | [e ->]]; [|by eexists].
    unfold bind at 1. rewrite subscript_dict.
    destruct (dict_get "kwargs" kwargs) as [k|]; [|by eexists].
    by destruct Hmiss as [? | [? | ?]]. }
  exists e. unfold add_objective_to_workflow.
  by rewrite (try_except_raised _ _ _ _ _ _ He).
Qed.

Lemma add_objective_to_workflow_missing_keyword_witness :
  dict_get "args" [("agent", PObj 3)] = None /\
  exists e,
    add_objective_to_workflow (PStr "summarise") [("agent", PObj 3)] two_tasks
    = (objective_banner,
       (Returned tt,
        with_stdout
          (stdout two_tasks ++ [Diag "Error adding objective to workflow" e])
          two_tasks)).
Proof.
  split; [reflexivity|].
  exact (add_objective_to_workflow_missing_keyword (PStr "summarise")
           [("agent", PObj 3)] two_tasks (or_intror (or_introl eq_refl))).
Defined.

End objectives.

(** ** [get_task_results] *)

Section results.

Implicit Types (ts : list loc) (st : list Task) (w : world)
  (d acc : list (pyval * pyval)).

Lemma py_eq_str k s : py_eq k (PStr s) = true -> k = PStr s.
Proof.
  destruct k; cbn; try discriminate. by intros ->%String.eqb_eq.
Qed.

Lemma getitem_setitem_same s v d :
  getitem (PStr s) (setitem (PStr s) v d) = Some v.
Proof.
  induction d as [|[k' v'] d IH]; cbn [setitem getitem].
  - cbn. by rewrite String.eqb_refl.
  - destruct (py_eq k' (PStr s)) eqn:E; cbn [getitem]; by rewrite E.
Qed.

Lemma getitem_setitem_other s s' v d :
  s <> s' -> getitem (PStr s) (setitem (PStr s') v d) = getitem (PStr s) d.
Proof.
  intros Hne. induction d as [|[k' v'] d IH]; cbn [setitem getitem].
  - cbn. apply String.eqb_neq in Hne. by rewrite String.eqb_sym, Hne.
  - destruct (py_eq k' (PStr s')) eqn:E; cbn [getitem].
    + apply py_eq_str in E as ->. cbn.
      apply String.eqb_neq in Hne. by rewrite String.eqb_sym, Hne.
    + by rewrite IH.
Qed.

Lemma setitem_keys k0 k v d :
  k0 ∈ (setitem k v d).*1 -> k0 = k \/ k0 ∈ d.*1.
Proof.
  induction d as [|[k' v'] d IH]; cbn [setitem].
  - cbn. intros [->|[]%elem_of_nil]%elem_of_cons. by left.
  - destruct (py_eq k' k); cbn; intros [->|Hin]%elem_of_cons.
    + right. apply list_elem_of_here.
    + right. by apply list_elem_of_further.
    + right. apply list_elem_of_here.
    + destruct (IH Hin) as [->|?]; [by left|]. right. by apply list_elem_of_further.
Qed.

(** On tasks described by strings the comprehension runs to its end and
    folds [add_result] over the pool. *)
Lemma results_of_fold ts acc w :
  described_by_strings (store w) ts ->
  results_of ts acc w = (Returned (fold_left (add_result (store w)) ts acc), w).
Proof.
  unfold described_by_strings.
  intros H; revert acc; induction H as [|l ts (t & Hl & s & Hs) _ IH]; intros acc;
    cbn [results_of fold_left]; [done|].
  rewrite !(bind_returned _ _ _ _ _ (getattr_task _ _ l t w Hl)).
  rewrite Hs. cbn [hashable]. rewrite IH.
  replace (add_result (store w) acc l) with (setitem (PStr s) (result t) acc);
    [done|]. unfold add_result. by rewrite Hl, Hs.
Qed.

Lemma fold_results_other st ts acc s :
  (forall j l t, ts !! j = Some l -> st !! l = Some t -> description t <> PStr s) ->
  described_by_strings st ts ->
  getitem (PStr s) (fold_left (add_result st) ts acc) = getitem (PStr s) acc.
Proof.
  intros Hother H; revert acc Hother.
  induction H as [|l ts (t & Hl & s' & Hs) _ IH]; intros acc Hother;
    cbn [fold_left]; [done|].
  rewrite IH by (intros j l' t' ?; by apply (Hother (S j))).
  unfold add_result. rewrite Hl, Hs. apply getitem_setitem_other.
  intros ->. by apply (Hother 0 l t).
Qed.

Lemma fold_results_last_wins st ts acc i l t :
  described_by_strings st ts ->
  ts !! i = Some l -> st !! l = Some t ->
  (forall j l' t', i < j -> ts !! j = Some l' -> st !! l' = Some t' ->
     description t' <> description t) ->
  getitem (description t) (fold_left (add_result st) ts acc) = Some (result t).
Proof.
  intros H; revert acc i.
  induction H as [|x ts (tx & Hx & s & Hs) Hts IH]; intros acc i Hi Hl Hlater;
    [done|].
  cbn [fold_left]. destruct i as [|i].
  - injection Hi as ->. rewrite Hx in Hl. injection Hl as ->.
    rewrite Hs. rewrite fold_results_other; [|intros j l' t' Hj Hl'|exact Hts].
    + unfold add_result. rewrite Hx, Hs. apply getitem_setitem_same.
    + rewrite <- Hs. apply (Hlater (S j) l' t'); [lia|exact Hj|exact Hl'].
  - apply (IH _ i); [exact Hi|exact Hl|].
    intros j l' t' Hij. apply (Hlater (S j)). lia.
Qed.

Lemma fold_results_keys st ts acc k :
  k ∈ (fold_left (add_result st) ts acc).*1 ->
  k ∈ acc.*1 \/ exists l t, l ∈ ts /\ st !! l = Some t /\ description t = k.
Proof.
  revert acc; induction ts as [|x ts IH]; intros acc; cbn [fold_left]; [by left|].
  intros [Hacc | (l & t & Hin & Hl & Hk)]%IH.
  - unfold add_result in Hacc. destruct (st !! x) as [tx|] eqn:Hx; [|by left].
    apply setitem_keys in Hacc as [-> | ?]; [|by left].
    right. exists x, tx. split; [apply list_elem_of_here | done].
  - right. exists l, t. split; [by apply list_elem_of_further | done].
Qed.

(** X9.  On a pool of tasks described by strings, [get_task_results]
    changes nothing and returns a mapping in which every key is the
    description of a task of the pool and every description is bound to
    the result of the last task of the pool that carries it: with
    duplicate descriptions the later task wins. *)
Theorem get_task_results_last_wins w ts :
  tasks (self w) = Some ts -> described_by_strings (store w) ts ->
  exists d,
    get_task_results w = (Returned (Some d), w) /\
    (forall i l t, ts !! i = Some l -> store w !! l = Some t ->
       (forall j l' t', i < j -> ts !! j = Some l' -> store w !! l' = Some t' ->
          description t' <> description t) ->
       getitem (description t) d = Some (result t)) /\
    (forall k, k ∈ d.*1 ->
       exists l t, l ∈ ts /\ store w !! l = Some t /\ description t = k).
Proof.
  intros Hts Hstr. exists (fold_left (add_result (store w)) ts []).
  split; [|split].
  - unfold get_task_results. apply try_except_returned.
    unfold get_task_results_body.
    assert (Hget : get_tasks w = (Returned ts, w)) by (unfold get_tasks; by rewrite Hts).
    rewrite (bind_returned _ _ _ _ _ Hget).
    by rewrite (bind_returned _ _ _ _ _ (results_of_fold ts [] w Hstr)).
  - intros i l t. by apply fold_results_last_wins.
  - intros k [[]%elem_of_nil | H]%fold_results_keys. exact H.
Qed.

Lemma get_task_results_last_wins_witness :
  exists d,
    get_task_results two_tasks = (Returned (Some d), two_tasks) /\
    getitem (PStr "build-report") d = Some PNone.
Proof.
  assert (Hstr : described_by_strings (store two_tasks) [0; 1]).
  { repeat constructor; eexists; (split; [reflexivity | by eexists]). }
  destruct (get_task_results_last_wins two_tasks [0; 1] eq_refl Hstr)
    as (d & Hd & Hlast & _).
  exists d. split; [exact Hd|].
  apply (Hlast 1 1 report eq_refl eq_refl).
  intros j l' t' Hj Hl. destruct j as [|[|j]]; [lia | lia | discriminate Hl].
Defined.

End results.

Section results_after_reset.

Implicit Types (ts : list loc) (w : world) (d acc : list (pyval * pyval)).

Lemma setitem_values (P : pyval -> Prop) k v acc :
  P v -> Forall (fun kv => P (snd kv)) acc ->
  Forall (fun kv => P (snd kv)) (setitem k v acc).
Proof.
  intros Hv. induction 1 as [|[k' v'] acc Hkv Hacc IH]; cbn [setitem].
  - by repeat constructor.
  - destruct (py_eq k' k); constructor; cbn in *; auto.
Qed.

(** A comprehension that ran to its end went over tasks only, changed
    nothing, and bound every key to the result of some task. *)
Lemma results_of_returned (P : pyval -> Prop) ts acc w d w' :
  results_of ts acc w = (Returned d, w') ->
  w' = w /\ holds_tasks (store w) ts /\
  ((forall l t, l ∈ ts -> store w !! l = Some t -> P (result t)) ->
   Forall (fun kv => P (snd kv)) acc -> Forall (fun kv => P (snd kv)) d).
Proof.
  unfold holds_tasks.
  revert acc; induction ts as [|l ts IH]; intros acc; cbn [results_of].
  - intros [= <- <-]. by repeat split.
  - unfold bind at 1. unfold getattr at 1.
    destruct (store w !! l) as [t|] eqn:Hl; [|done].
    rewrite (bind_returned _ _ _ _ _ (getattr_task _ _ l t w Hl)).
    destruct (hashable (description t)); [|done].
    intros (-> & Hts & Hval)%IH. split; [done|]. split.
    + constructor; [by eexists | done].
    + intros Hres Hacc. apply Hval.
      * intros l' t' Hin. apply Hres. by apply list_elem_of_further.
      * apply setitem_values; [|done]. apply (Hres l t); [apply list_elem_of_here | done].
Qed.

(** X10.  After [reset], whenever [get_task_results] returns a mapping,
    every description in it is bound to [None]. *)
Theorem get_task_results_after_reset w d :
  fst (get_task_results (snd (reset w))) = Returned (Some d) ->
  Forall (fun kv => snd kv = PNone) d.
Proof.
  set (w1 := snd (reset w)).
  assert (Hself : self w1 = self w).
  { unfold w1. rewrite reset_world. destruct (tasks (self w)); [|done].
    cbn zeta. by destruct (fst (clear_results _ _)). }
  destruct (tasks (self w)) as [ts|] eqn:Hts.
  2:{ unfold get_task_results, try_except, get_task_results_body, bind, get_tasks.
      rewrite Hself, Hts. discriminate. }
  assert (Hstore : store w1 = snd (clear_results ts (store w))).
  { unfold w1. rewrite reset_world, Hts. cbn zeta.
    by destruct (fst (clear_results _ _)). }
  unfold get_task_results, try_except, get_task_results_body.
  assert (Hget : get_tasks w1 = (Returned ts, w1)).
  { unfold get_tasks. by rewrite Hself, Hts. }
  rewrite (bind_returned _ _ _ _ _ Hget).
  unfold bind. destruct (results_of ts [] w1) as [[d'|e] w2] eqn:Hres; [|discriminate].
  cbn. intros [= <-].
  destruct (results_of_returned (fun v => v = PNone) _ _ _ _ _ Hres) as (_ & Hok & Hval).
  assert (Hok0 : holds_tasks (store w) ts).
  { eapply Forall_impl; [exact Hok|]. cbn. intros l Hl.
    apply lookup_lt_is_Some. apply lookup_lt_is_Some in Hl.
    by rewrite Hstore, clear_results_length in Hl. }
  destruct (clear_results_tasks ts (store w) Hok0) as [_ Hlk].
  apply Hval; [|constructor].
  intros l t Hin Hl. rewrite Hstore, Hlk in Hl.
  rewrite bool_decide_eq_true_2 in Hl by done.
  destruct (store w !! l); [|done]. by injection Hl as <-.
Qed.

Lemma get_task_results_after_reset_witness :
  get_task_results (snd (reset two_tasks))
  = (Returned (Some [(PStr "fetch-weather", PNone); (PStr "build-report", PNone)]),
     snd (reset two_tasks)) /\
  Forall (fun kv => snd kv = PNone)
    [(PStr "fetch-weather", PNone); (PStr "build-report", PNone)].
Proof.
  split; [reflexivity|].
  apply (get_task_results_after_reset two_tasks). reflexivity.
Defined.

End results_after_reset.

(** ** [save_workflow_state] *)

Section saving.

Implicit Types (ts : list loc) (w : world) (fp : option string).

Lemma write_file_twice path c c' fs :
  write_file path c (write_file path c' fs) = write_file path c fs.
Proof. unfold write_file. cbn. by rewrite insert_insert_eq. Qed.

Lemma task_records_plan ts w :
  map_M task_record ts w
  = if forallb (fun l => bool_decide (is_Some (store w !! l))) ts
    then (Returned (records_of (store w) ts), w)
    else (Raised (AttributeError "description"), w).
Proof.
  unfold records_of.
  induction ts as [|l ts IH]; cbn [map_M forallb omap list_omap]; [done|].
  destruct (store w !! l) as [t|] eqn:Hl.
  - rewrite (bind_returned _ _ _ _ _ (task_record_world l t w Hl)).
    rewrite bool_decide_eq_true_2 by (by eexists). cbn [andb].
    unfold bind at 1. rewrite IH. by destruct (forallb _ ts).
  - rewrite bool_decide_eq_false_2 by (by intros [? ?]). cbn [andb].
    unfold task_record, bind, getattr. by rewrite Hl.
Qed.

Lemma path_or_resolve fp name attribute w :
  path_or fp name attribute w
  = match resolve_path fp (attribute (self w)) with
    | Some p => (Returned p, w)
    | None => (Raised (AttributeError name), w)
    end.
Proof.
  unfold path_or, resolve_path. destruct fp as [p|]; cbn.
  - by destruct (negb (String.eqb p EmptyString)).
  - done.
Qed.

(** The [try] block of [save_workflow_state] follows its plan. *)
Lemma save_body_plan fp w :
  save_workflow_state_body fp w
  = (fst (save_plan fp (store w) (self w) (can_open (disk w))),
     leave_file (snd (save_plan fp (store w) (self w) (can_open (disk w)))) w).
Proof.
  unfold save_workflow_state_body, save_plan.
  unfold bind at 1. rewrite path_or_resolve.
  destruct (resolve_path fp (saved_state_filepath (self w))) as [path|]; [|done].
  unfold bind at 1. unfold open_w.
  destruct (can_open (disk w) path) eqn:Hopen; [|done].
  set (w1 := with_disk (write_file path FBroken (disk w)) w).
  unfold bind at 1. unfold get_tasks.
  change (tasks (self w1)) with (tasks (self w)).
  destruct (tasks (self w)) as [ts|]; [|done].
  unfold bind at 1. rewrite task_records_plan.
  change (store w1) with (store w).
  destruct (forallb _ ts); [|done].
  unfold bind at 1. unfold get_max_loops.
  change (max_loops (self w1)) with (max_loops (self w)).
  destruct (max_loops (self w)) as [m|]; [|done].
  unfold json_dump. fold (saved_document (store w) ts m).
  destruct (serialisable (saved_document (store w) ts m)); cbn [fst snd leave_file];
    unfold w1; cbn [disk with_disk]; by rewrite write_file_twice.
Qed.

Lemma save_world_plan fp w :
  save_workflow_state fp w
  = (Returned tt,
     let plan := save_plan fp (store w) (self w) (can_open (disk w)) in
     match fst plan with
     | Returned _ => leave_file (snd plan) w
     | Raised e =>
         with_stdout (stdout w ++ [Diag "Error saving workflow state" e])
           (leave_file (snd plan) w)
     end).
Proof.
  unfold save_workflow_state, try_except. rewrite save_body_plan. cbn zeta.
  destruct (save_plan _ _ _ _) as [[[]|e] [[p c]|]]; reflexivity.
Qed.

(** X11.  [save_workflow_state] returns normally on every input and is
    read-only on the workflow: the store and the attributes are as
    before, the set of refused paths too, and at most one file, the one
    at the path it resolved, differs from before. *)
Theorem save_workflow_state_touches_one_file fp w :
  fst (save_workflow_state fp w) = Returned tt /\
  store (snd (save_workflow_state fp w)) = store w /\
  self (snd (save_workflow_state fp w)) = self w /\
  denied (disk (snd (save_workflow_state fp w))) = denied (disk w) /\
  forall p, Some p <> resolve_path fp (saved_state_filepath (self w)) ->
    files (disk (snd (save_workflow_state fp w))) !! p = files (disk w) !! p.
Proof.
  rewrite save_world_plan. cbn [fst snd]. cbn zeta.
  assert (Hpath : forall p c,
            snd (save_plan fp (store w) (self w) (can_open (disk w))) = Some (p, c) ->
            resolve_path fp (saved_state_filepath (self w)) = Some p).
  { intros p c. unfold save_plan.
    destruct (resolve_path fp _) as [path|]; [|done].
    destruct (can_open (disk w) path); [|done].
    destruct (tasks (self w)); [|by intros [= <- _]].
    destruct (forallb _ _); [|by intros [= <- _]].
    destruct (max_loops (self w)); [|by intros [= <- _]].
    destruct (serialisable _); by intros [= <- _]. }
  destruct (save_plan fp (store w) (self w) (can_open (disk w))) as [o [[path c]|]];
    cbn [fst snd] in *.
  - specialize (Hpath path c eq_refl).
    assert (forall p, Some p <> resolve_path fp (saved_state_filepath (self w)) ->
              <[path := c]> (files (disk w)) !! p = files (disk w) !! p) as Hfiles.
    { intros p Hp. apply lookup_insert_ne. intros ->. by rewrite Hpath in Hp. }
    destruct o; by repeat split.
  - destruct o; by repeat split.
Qed.

(** X12.  A save that fails after its file was opened leaves the file
    broken: whatever was saved there before is lost, whether the failure
    is a missing [tasks] or [max_loops], an element that is not a task or
    a value JSON cannot carry. *)
Theorem save_workflow_state_failure_breaks_file path w e w' :
  can_open (disk w) path = true ->
  save_workflow_state_body (Some path) w = (Raised e, w') ->
  w' = with_disk (write_file path FBroken (disk w)) w /\
  files (disk w') !! path = Some FBroken.
Proof.
  intros Hopen. rewrite save_body_plan. unfold save_plan, resolve_path.
  rewrite (can_open_path _ _ Hopen), Hopen.
  assert (Hb : files (disk (with_disk (write_file path FBroken (disk w)) w)) !! path
               = Some FBroken) by apply lookup_insert_eq.
  destruct (tasks (self w)) as [ts|]; [|by intros [= _ <-]].
  destruct (forallb _ ts); [|by intros [= _ <-]].
  destruct (max_loops (self w)) as [m|]; [|by intros [= _ <-]].
  destruct (serialisable _); [discriminate | by intros [= _ <-]].
Qed.

Lemma save_workflow_state_failure_breaks_file_witness :
  can_open (disk fresh) "state.json" = true /\
  save_workflow_state_body (Some "state.json") fresh
  = (Raised (AttributeError "tasks"),
     with_disk (write_file "state.json" FBroken (disk fresh)) fresh) /\
  files (disk (with_disk (write_file "state.json" FBroken (disk fresh)) fresh))
    !! "state.json" = Some FBroken.
Proof.
  assert (Hopen : can_open (disk fresh) "state.json" = true)
    by (vm_compute; reflexivity).
  assert (H : save_workflow_state_body (Some "state.json") fresh
              = (Raised (AttributeError "tasks"),
                 with_disk (write_file "state.json" FBroken (disk fresh)) fresh))
    by (vm_compute; reflexivity).
  split; [exact Hopen|]. split; [exact H|].
  exact (proj2 (save_workflow_state_failure_breaks_file _ _ _ _ Hopen H)).
Defined.

End saving.

Section saving_again.

Implicit Types (ts : list loc) (w : world) (fp : option string).

Lemma forallb_holds_tasks (st : list Task) ts :
  forallb (fun l => bool_decide (is_Some (st !! l))) ts = true -> holds_tasks st ts.
Proof.
  unfold holds_tasks. induction ts as [|l ts IH]; cbn [forallb]; [constructor|].
  intros [Hl Hts]%andb_prop. constructor; [by apply bool_decide_eq_true in Hl | auto].
Qed.

Lemma records_without_agent (st : list Task) ts r :
  r ∈ records_of st ts -> exists kvs, r = PDict kvs /\ dict_get "agent" kvs = None.
Proof.
  unfold records_of. induction ts as [|l ts IH]; cbn [omap list_omap].
  - by intros ?%elem_of_nil.
  - destruct (st !! l) as [t|]; cbn [fmap option_fmap option_map]; [|exact IH].
    intros [-> | Hin]%elem_of_cons; [|auto]. by eexists.
Qed.

(** X13.  When the [try] block of [save_workflow_state] returns, the pool
    and [max_loops] were set, the pool held tasks, and the file at the
    resolved path now holds the document of that pool: one record per
    task in pool order, none of them with an ["agent"], and [max_loops].
    Nothing else has changed. *)
Theorem save_workflow_state_success_document fp w w' :
  save_workflow_state_body fp w = (Returned tt, w') ->
  exists path ts m,
    resolve_path fp (saved_state_filepath (self w)) = Some path /\
    tasks (self w) = Some ts /\ holds_tasks (store w) ts /\
    max_loops (self w) = Some m /\
    w' = with_disk (write_file path (FDoc (saved_document (store w) ts m)) (disk w)) w /\
    forall r, r ∈ records_of (store w) ts ->
      exists kvs, r = PDict kvs /\ dict_get "agent" kvs = None.
Proof.
  rewrite save_body_plan. unfold save_plan.
  destruct (resolve_path fp _) as [path|]; [|discriminate].
  destruct (can_open (disk w) path); [|discriminate].
  destruct (tasks (self w)) as [ts|]; [|discriminate].
  destruct (forallb _ ts) eqn:Hok; [|discriminate].
  destruct (max_loops (self w)) as [m|]; [|discriminate].
  destruct (serialisable _); [|discriminate].
  cbn [fst snd leave_file]. intros [= <-].
  exists path, ts, m. repeat split; try done.
  - by apply forallb_holds_tasks.
  - apply records_without_agent.
Qed.

Lemma save_workflow_state_success_document_witness :
  save_workflow_state_body (Some "state.json") two_tasks
  = (Returned tt,
     with_disk (write_file "state.json"
                  (FDoc (saved_document (store two_tasks) [0; 1] (PInt 1)))
                  (disk two_tasks)) two_tasks) /\
  exists path ts m,
    resolve_path (Some "state.json") (saved_state_filepath (self two_tasks)) = Some path /\
    tasks (self two_tasks) = Some ts /\ max_loops (self two_tasks) = Some m.
Proof.
  assert (H : save_workflow_state_body (Some "state.json") two_tasks
              = (Returned tt,
                 with_disk (write_file "state.json"
                              (FDoc (saved_document (store two_tasks) [0; 1] (PInt 1)))
                              (disk two_tasks)) two_tasks))
    by (vm_compute; reflexivity).
  split; [exact H|].
  destruct (save_workflow_state_success_document _ _ _ H)
    as (path & ts & m & Hp & Hts & _ & Hm & _).
  by exists path, ts, m.
Defined.

Lemma save_plan_ext fp (st : list Task) o (f g : string -> bool) :
  (forall p, f p = g p) -> save_plan fp st o f = save_plan fp st o g.
Proof.
  intros Hfg. unfold save_plan.
  destruct (resolve_path fp _) as [path|]; [|done]. by rewrite Hfg.
Qed.

(** X14.  Saving twice in a row leaves what saving once leaves: the same
    files, the same store and attributes. *)
Theorem save_workflow_state_idempotent fp w :
  same_state (snd (save_workflow_state fp (snd (save_workflow_state fp w))))
             (snd (save_workflow_state fp w)).
Proof.
  rewrite (save_world_plan fp w). cbn [snd]. cbn zeta.
  set (plan := save_plan fp (store w) (self w) (can_open (disk w))).
  set (w1 := match fst plan with
             | Returned _ => leave_file (snd plan) w
             | Raised e => with_stdout _ (leave_file (snd plan) w)
             end).
  assert (Hst : store w1 = store w).
  { unfold w1. by destruct (fst plan), (snd plan) as [[? ?]|]. }
  assert (Hself : self w1 = self w).
  { unfold w1. by destruct (fst plan), (snd plan) as [[? ?]|]. }
  assert (Hdisk : disk w1 = disk (leave_file (snd plan) w)).
  { unfold w1. by destruct (fst plan), (snd plan) as [[? ?]|]. }
  assert (Hplan : save_plan fp (store w1) (self w1) (can_open (disk w1)) = plan).
  { rewrite Hst, Hself, Hdisk. apply save_plan_ext. intros p.
    unfold can_open. by destruct (snd plan) as [[? ?]|]. }
  rewrite save_world_plan. cbn [snd]. cbn zeta. rewrite Hplan.
  assert (same_state (leave_file (snd plan) w1) w1) as (H1 & H2 & H3).
  { unfold same_state. destruct (snd plan) as [[path c]|]; [|done].
    cbn [leave_file]. repeat split. cbn [disk with_disk]. rewrite Hdisk.
    cbn [leave_file disk with_disk]. apply write_file_twice. }
  destruct (fst plan); repeat split; cbn; done.
Qed.

End saving_again.

(** ** [load_workflow_state] *)

Section loading.

Implicit Types (ts : list loc) (w : world) (fp : option string).

Lemma load_task_record r t w ts :
  task_of_record r = Some t -> tasks (self w) = Some ts ->
  load_task r w
  = (Returned tt,
     with_self (with_tasks (Some (ts ++ [length (store w)])) (self w))
       (with_store (store w ++ [t]) w)).
Proof.
  intros Hr Hts. destruct r as [| | | | |kvs|]; try discriminate.
  cbn [task_of_record] in Hr.
  destruct (dict_get "description" kvs) as [d|] eqn:H1; [|discriminate].
  destruct (dict_get "agent" kvs) as [a|] eqn:H2; [|discriminate].
  destruct (dict_get "args" kvs) as [ar|] eqn:H3; [|discriminate].
  destruct (dict_get "kwargs" kvs) as [k|] eqn:H4; [|discriminate].
  destruct (dict_get "result" kvs) as [res|] eqn:H5; [|discriminate].
  destruct (dict_get "history" kvs) as [h|] eqn:H6; [|discriminate].
  injection Hr as <-.
  assert (Hsub : forall key x, dict_get key kvs = Some x ->
                   subscript (PDict kvs) key w = (Returned x, w)).
  { intros key x Hx. by rewrite subscript_dict, Hx. }
  unfold load_task.
  rewrite (bind_returned _ _ _ _ _ (Hsub _ _ H1)), (bind_returned _ _ _ _ _ (Hsub _ _ H2)),
    (bind_returned _ _ _ _ _ (Hsub _ _ H3)), (bind_returned _ _ _ _ _ (Hsub _ _ H4)),
    (bind_returned _ _ _ _ _ (Hsub _ _ H5)), (bind_returned _ _ _ _ _ (Hsub _ _ H6)).
  unfold bind, new_task, get_tasks, put_tasks, modify. cbn. by rewrite Hts.
Qed.

Lemma load_task_records records new w ts :
  Forall2 (fun r t => task_of_record r = Some t) records new ->
  tasks (self w) = Some ts ->
  for_each records load_task w
  = (Returned tt,
     with_self (with_tasks (Some (ts ++ seq (length (store w)) (length new))) (self w))
       (with_store (store w ++ new) w)).
Proof.
  intros H; revert w ts; induction H as [|r t records new Hr _ IH]; intros w ts Hts;
    cbn [for_each].
  - cbn. rewrite !app_nil_r. destruct w as [st [tp o m sp rp] d out].
    cbn in *. by subst.
  - rewrite (bind_returned _ _ _ _ _ (load_task_record r t w ts Hr Hts)).
    rewrite (IH _ (ts ++ [length (store w)])) by reflexivity.
    cbn. rewrite length_app. cbn. rewrite <- !app_assoc. cbn.
    by rewrite Nat.add_1_r.
Qed.

(** X15.  Loading a file that holds a document with [max_loops] and a
    list of records, each with the six fields read, replaces the pool:
    [max_loops] is the document's, [tasks] refers to new tasks built from
    the records, in order, and to none of the tasks of before, which stay
    in the store as they were; [task_pool], the files and the output are
    untouched. *)
Theorem load_workflow_state_restores path w kvs m records new :
  can_open (disk w) path = true ->
  files (disk w) !! path = Some (FDoc (PDict kvs)) ->
  dict_get "max_loops" kvs = Some m ->
  dict_get "tasks" kvs = Some (PList records) ->
  Forall2 (fun r t => task_of_record r = Some t) records new ->
  load_workflow_state (Some path) w
  = (Returned tt,
     with_self
       (with_tasks (Some (seq (length (store w)) (length new)))
                   (with_max_loops (Some m) (self w)))
       (with_store (store w ++ new) w)).
Proof.
  intros Hopen Hfile Hm Hrecs Hnew.
  unfold load_workflow_state. apply try_except_returned.
  assert (H1 : path_or (Some path) "restore_state_filepath" restore_state_filepath w
               = (Returned path, w)).
  { unfold path_or. by rewrite (can_open_path _ _ Hopen). }
  assert (H2 : open_r_json_load path w = (Returned (PDict kvs), w)).
  { unfold open_r_json_load. by rewrite Hopen, Hfile. }
  assert (Hsrc : load_source (Some path) w = (Returned (PDict kvs, m), w)).
  { unfold load_source.
    rewrite (bind_returned _ _ _ _ _ H1), (bind_returned _ _ _ _ _ H2).
    unfold bind. by rewrite subscript_dict, Hm. }
  unfold load_workflow_state_body. rewrite (bind_returned _ _ _ _ _ Hsrc).
  cbn [fst snd]. unfold load_apply.
  set (w1 := with_self (with_tasks (Some []) (with_max_loops (Some m) (self w))) w).
  change (bind (modify _) _ w) with
    (bind (subscript (PDict kvs) "tasks")
          (fun v => bind (py_iter v) (fun items => for_each items load_task)) w1).
  unfold bind at 1. rewrite subscript_dict, Hrecs.
  unfold bind at 1. cbn [py_iter ret].
  by rewrite (load_task_records records new w1 [] Hnew eq_refl).
Qed.

Lemma load_workflow_state_restores_witness :
  load_workflow_state (Some "good.json") two_tasks_and_good_file
  = (Returned tt,
     with_self (mkWorkflow [] (Some [2]) (Some (PInt 3)) None None)
       (with_store
          [weather; report;
           mkTask (PStr "plan") PNone (PList []) (PDict []) (PStr "done") (PList [])]
          two_tasks_and_good_file)).
Proof.
  rewrite (load_workflow_state_restores "good.json" two_tasks_and_good_file
             [("tasks",
               PList [PDict [("description", PStr "plan"); ("agent", PNone);
                             ("args", PList []); ("kwargs", PDict []);
                             ("result", PStr "done"); ("history", PList [])]]);
              ("max_loops", PInt 3)]
             (PInt 3)
             [PDict [("description", PStr "plan"); ("agent", PNone);
                     ("args", PList []); ("kwargs", PDict []);
                     ("result", PStr "done"); ("history", PList [])]]
             [mkTask (PStr "plan") PNone (PList []) (PDict []) (PStr "done") (PList [])]).
  - reflexivity.
  - vm_compute. reflexivity.
  - vm_compute. reflexivity.
  - reflexivity.
  - reflexivity.
  - repeat constructor.
Defined.

(** Whatever its outcome, the [try] block of [load_workflow_state] leaves
    the world as it was or resets [max_loops] and the pool and appends
    new tasks. *)
Lemma load_body_world fp w o w' :
  load_workflow_state_body fp w = (o, w') ->
  w' = w \/
  exists m n,
    grown n (with_self (with_tasks (Some []) (with_max_loops (Some m) (self w))) w) w'.
Proof.
  intros Hbody. unfold load_workflow_state_body in Hbody.
  destruct (load_source fp w) as [[[state m]|e0] w0] eqn:Hsrc;
    pose proof (load_source_world _ _ _ _ Hsrc) as ->.
  2:{ rewrite (bind_raised _ _ _ _ _ Hsrc) in Hbody. injection Hbody as _ <-.
      by left. }
  rewrite (bind_returned _ _ _ _ _ Hsrc) in Hbody. cbn [fst snd] in Hbody.
  right. exists m.
  set (w1 := with_self (with_tasks (Some []) (with_max_loops (Some m) (self w))) w).
  assert (Hts1 : tasks (self w1) = Some []) by reflexivity.
  unfold load_apply in Hbody.
  change (bind (modify _) _ w) with
    (bind (subscript state "tasks")
          (fun v => bind (py_iter v) (fun items => for_each items load_task)) w1)
    in Hbody.
  destruct (subscript_world state "tasks" w1) as [[v Hv] | [e1 Hv]].
  2:{ rewrite (bind_raised _ _ _ _ _ Hv) in Hbody. injection Hbody as _ <-.
      exists 0. by eapply grown_zero. }
  rewrite (bind_returned _ _ _ _ _ Hv) in Hbody.
  destruct (py_iter_world v w1) as [[items Hi] | [e1 Hi]].
  2:{ rewrite (bind_raised _ _ _ _ _ Hi) in Hbody. injection Hbody as _ <-.
      exists 0. by eapply grown_zero. }
  rewrite (bind_returned _ _ _ _ _ Hi) in Hbody.
  destruct (load_tasks_world items w1 [] Hts1) as (o' & n & w2 & Hloop & G & _).
  rewrite Hloop in Hbody. injection Hbody as _ <-.
  by exists n.
Qed.

(** X16.  [load_workflow_state] returns normally on every input, never
    writes a file, never touches [task_pool] nor the two default paths,
    and never changes or removes a task object: the store after the call
    is the store of before, possibly followed by new tasks. *)
Theorem load_workflow_state_keeps_objects fp w :
  fst (load_workflow_state fp w) = Returned tt /\
  disk (snd (load_workflow_state fp w)) = disk w /\
  task_pool (self (snd (load_workflow_state fp w))) = task_pool (self w) /\
  saved_state_filepath (self (snd (load_workflow_state fp w)))
    = saved_state_filepath (self w) /\
  restore_state_filepath (self (snd (load_workflow_state fp w)))
    = restore_state_filepath (self w) /\
  exists new, store (snd (load_workflow_state fp w)) = store w ++ new.
Proof.
  unfold load_workflow_state, try_except.
  destruct (load_workflow_state_body fp w) as [o w'] eqn:Hbody.
  assert (disk w' = disk w /\ task_pool (self w') = task_pool (self w) /\
          saved_state_filepath (self w') = saved_state_filepath (self w) /\
          restore_state_filepath (self w') = restore_state_filepath (self w) /\
          exists new, store w' = store w ++ new) as (H1 & H2 & H3 & H4 & new & H5).
  { destruct (load_body_world _ _ _ _ Hbody) as [-> | (m & n & ts & new & _ & _ & ->)].
    - repeat split. exists []. by rewrite app_nil_r.
    - repeat split. by exists new. }
  destruct o as [[]|e]; cbn; repeat split; try done; by exists new.
Qed.

End loading.

(** ** The pool refers to tasks *)

Section pool_invariant.

Implicit Types (ts : list loc) (st : list Task) (w : world).






Lemma results_of_world ts acc w o w' : results_of ts acc w = (o, w') -> w' = w.
Proof.
  revert acc; induction ts as [|l ts IH]; intros acc; cbn [results_of].
  - by intros [= _ <-].
  - unfold bind at 1. unfold getattr at 1.
    destruct (store w !! l) as [t|] eqn:Hl; [|by intros [= _ <-]].
    rewrite (bind_returned _ _ _ _ _ (getattr_task _ _ l t w Hl)).
    destruct (hashable (description t)); [apply IH | by intros [= _ <-]].
Qed.

Lemma get_task_results_state w : same_state (snd (get_task_results w)) w.
Proof.
  unfold get_task_results, try_except, get_task_results_body, bind, get_tasks.
  destruct (tasks (self w)) as [ts|]; [|apply same_state_stdout].
  destruct (results_of ts [] w) as [[d|e] w'] eqn:E;
    apply results_of_world in E as ->; cbn;
    [apply same_state_refl | apply same_state_stdout].
Qed.

Lemma add_objective_body_world task kwargs w o w' :
  add_objective_to_workflow_body task kwargs w = (o, w') ->
  w' = w \/
  (exists t, tasks (self w) = None /\ w' = with_store (store w ++ [t]) w) \/
  (exists t ts, tasks (self w) = Some ts /\
     w' = with_self (with_tasks (Some (ts ++ [length (store w)])) (self w))
            (with_store (store w ++ [t]) w)).
Proof.
  unfold add_objective_to_workflow_body.
  destruct (subscript_world (PDict kwargs) "agent" w) as [[a H1] | [e H1]];
    [rewrite (bind_returned _ _ _ _ _ H1)
    |rewrite (bind_raised _ _ _ _ _ H1); intros [= _ <-]; by left].
  destruct (subscript_world (PDict kwargs) "args" w) as [[ar H2] | [e H2]];
    [rewrite (bind_returned _ _ _ _ _ H2)
    |rewrite (bind_raised _ _ _ _ _ H2); intros [= _ <-]; by left].
  destruct (py_iter_world ar w) as [[items H3] | [e H3]];
    [rewrite (bind_returned _ _ _ _ _ H3)
    |rewrite (bind_raised _ _ _ _ _ H3); intros [= _ <-]; by left].
  destruct (subscript_world (PDict kwargs) "kwargs" w) as [[k H4] | [e H4]];
    [rewrite (bind_returned _ _ _ _ _ H4)
    |rewrite (bind_raised _ _ _ _ _ H4); intros [= _ <-]; by left].
  unfold bind, new_task, get_tasks, put_tasks, modify. cbn.
  destruct (tasks (self w)) as [ts|] eqn:Hts; intros [= _ <-]; right.
  - right. by eexists _, ts.
  - left. by eexists.
Qed.



End pool_invariant.

(** ** [__str__] and [__repr__] *)

Section printing.

Implicit Types (w : world) (n : nat).

Lemma append_inj_r (s1 s2 t : string) : s1 +:+ t = s2 +:+ t -> s1 = s2.
Proof.
  revert s2; induction s1 as [|c s1 IH]; intros [|c' s2] H.
  - done.
  - apply (f_equal String.length) in H.
    rewrite append_nil, append_cons in H. cbn in H. rewrite length_append in H. lia.
  - apply (f_equal String.length) in H.
    rewrite append_nil, append_cons in H. cbn in H. rewrite length_append in H. lia.
  - rewrite !append_cons in H. injection H as -> H. by rewrite (IH _ H).
Qed.

Lemma to_uint_not_nil n : Nat.to_uint n <> Decimal.Nil.
Proof.
  intros H. assert (n = 0) as ->.
  { by rewrite <- (DecimalNat.Unsigned.of_to n), H. }
  discriminate H.
Qed.

Lemma decimal_inj n n' :
  NilZero.string_of_uint (Nat.to_uint n) = NilZero.string_of_uint (Nat.to_uint n') ->
  n = n'.
Proof.
  intros H. apply (f_equal NilZero.uint_of_string) in H.
  rewrite !NilZero.usu in H by apply to_uint_not_nil.
  injection H as H. by apply DecimalNat.Unsigned.to_uint_inj.
Qed.

Lemma str_length w w' :
  __str__ w = __str__ w' <->
  length (task_pool (self w)) = length (task_pool (self w')).
Proof.
  unfold __str__. split; [|by intros ->].
  intros H. apply String.app_inj in H. apply append_inj_r in H.
  by apply decimal_inj.
Qed.

End printing.

(** ** [get_system_info] *)

Section system_info_facts.

Local Open Scope Z_scope.

Lemma py_range_mac : py_range 0 (2 * 6) 8 = [0; 8].
Proof. reflexivity. Qed.

Lemma format_02x_byte v :
  0 <= v < 256 -> String.length (format_02x v) = 2%nat.
Proof.
  intros Hv.
  assert (Hall : forallb (fun n => Nat.eqb (String.length (format_02x (Z.of_nat n))) 2)
                         (seq 0 256) = true) by (vm_compute; reflexivity).
  rewrite forallb_forall in Hall.
  specialize (Hall (Z.to_nat v)). rewrite Z2Nat.id in Hall by lia.
  apply Nat.eqb_eq, Hall. apply in_seq. lia.
Qed.

Lemma low_byte n : Z.land (Z.shiftr n 0) 255 = n mod 256.
Proof. rewrite Z.shiftr_0_r. apply (Z.land_ones n 8). lia. Qed.

Lemma second_byte n : Z.land (Z.shiftr n 8) 255 = (n / 256) mod 256.
Proof.
  rewrite Z.shiftr_div_pow2 by lia. apply (Z.land_ones (n / 2 ^ 8) 8). lia.
Qed.

Lemma mac_address_eq h :
  mac_address h
  = format_02x ((getnode h / 256) mod 256) +:+ ":" +:+ format_02x (getnode h mod 256).
Proof.
  unfold mac_address. rewrite py_range_mac. cbn [map rev app join].
  by rewrite low_byte, second_byte.
Qed.

(** X19.  The ["mac_address"] that [get_system_info] reports has two
    octets, not six: the range of the comprehension stops at 12 bits, so
    the text is five characters long and is the same for all hardware
    addresses that agree on their low 16 bits. *)
Theorem mac_address_two_octets h :
  String.length (mac_address h) = 5%nat /\
  (forall h', getnode h mod 65536 = getnode h' mod 65536 ->
              mac_address h = mac_address h') /\
  (forall info, get_system_info h = Some info ->
     exists kvs, info = PDict kvs /\
                 dict_get "mac_address" kvs = Some (PStr (mac_address h))).
Proof.
  split; [|split].
  - rewrite mac_address_eq, !length_append.
    rewrite !format_02x_byte by (apply Z.mod_pos_bound; lia). reflexivity.
  - intros h' H. rewrite !mac_address_eq.
    pose proof (Z.rem_mul_r (getnode h) 256 256) as E.
    pose proof (Z.rem_mul_r (getnode h') 256 256) as E'.
    change (256 * 256) with 65536 in *.
    rewrite E, E' in H by lia.
    pose proof (Z.mod_pos_bound (getnode h) 256).
    pose proof (Z.mod_pos_bound (getnode h') 256).
    pose proof (Z.mod_pos_bound (getnode h / 256) 256).
    pose proof (Z.mod_pos_bound (getnode h' / 256) 256).
    assert (getnode h mod 256 = getnode h' mod 256) as -> by lia.
    assert ((getnode h / 256) mod 256 = (getnode h' / 256) mod 256) as -> by lia.
    reflexivity.
  - intros info. unfold get_system_info.
    destruct (gethostbyname h (gethostname h)) as [ip|]; [|discriminate].
    intros [= <-]. by eexists.
Qed.

Lemma mac_address_two_octets_witness :
  mac_address sample_host = "90:ab" /\
  mac_address sample_host
  = mac_address (mkHost "Linux" "6.1" "1" "x86_64" "box" (fun _ => Some "127.0.0.1")
                        37035 "x86_64" "3.11" PNone).
Proof.
  split; [vm_compute; reflexivity|].
  apply (proj1 (proj2 (mac_address_two_octets sample_host))).
  vm_compute. reflexivity.
Defined.

End system_info_facts.

(** ** Failing softly *)

Section soft_failures.

Implicit Types (ts : list loc) (st : list Task) (w : world) (task : value).

Lemma clear_results_app before rest st :
  holds_tasks st before ->
  clear_results (before ++ rest) st
  = clear_results rest (snd (clear_results before st)).
Proof.
  unfold holds_tasks. intros H; revert st H.
  induction before as [|l before IH]; intros st H; cbn [app clear_results]; [done|].
  apply Forall_cons in H as [[t Hl] H]. rewrite Hl. apply IH.
  eapply Forall_impl; [exact H|]. cbn. intros j Hj.
  apply lookup_lt_is_Some. rewrite length_insert. by apply lookup_lt_is_Some.
Qed.

(** X20.  [reset] stops at the first element of the pool that takes no
    attributes, such as a string or [None] among the tasks: the results
    of the tasks before it are cleared, the tasks after it keep theirs
    unless they are also among those before it, one [AttributeError] is
    reported and the call returns normally. *)
Theorem reset_stops_where_result_cannot_be_set w before bad after :
  tasks (self w) = Some (before ++ bad :: after) ->
  holds_tasks (store w) before ->
  takes_no_attributes (store w) bad ->
  exists st',
    reset w
    = (Returned tt,
       with_stdout (stdout w ++ [Diag "Error resetting workflow" (AttributeError "result")])
         (with_store st' w)) /\
    forall i, st' !! i
              = if bool_decide (i ∈ before) then set_result PNone <$> store w !! i
                else store w !! i.
Proof.
  intros Hts Hok Hbad.
  destruct (clear_results_tasks before (store w) Hok) as [Hret Hlk].
  exists (snd (clear_results before (store w))). split; [|exact Hlk].
  rewrite reset_world, Hts. cbn zeta.
  rewrite (clear_results_app _ _ _ Hok). cbn [clear_results].
  assert (Hbad' : snd (clear_results before (store w)) !! bad = None).
  { rewrite Hlk, Hbad. by case_bool_decide. }
  by rewrite Hbad'.
Qed.

Lemma reset_stops_where_result_cannot_be_set_witness :
  result weather = PStr "sunny" /\ result finished_report = PStr "two pages" /\
  takes_no_attributes (store odd_pool) 5 /\
  exists st',
    reset odd_pool
    = (Returned tt,
       with_stdout [Diag "Error resetting workflow" (AttributeError "result")]
         (with_store st' odd_pool)) /\
    result <$> st' !! 0 = Some PNone /\
    result <$> st' !! 1 = Some (PStr "two pages").
Proof.
  assert (Hok : holds_tasks (store odd_pool) [0]).
  { repeat constructor. by eexists. }
  assert (Hbad : takes_no_attributes (store odd_pool) 5) by reflexivity.
  destruct (reset_stops_where_result_cannot_be_set odd_pool [0] 5 [1] eq_refl Hok Hbad)
    as (st' & Hreset & Hlk).
  split; [reflexivity|]. split; [reflexivity|]. split; [exact Hbad|].
  exists st'. split; [exact Hreset|].
  split; [by rewrite (Hlk 0) | by rewrite (Hlk 1)].
Defined.

Lemma after_loop_cons task l ts : after_loop (VTask l) ts = after_loop task (l :: ts).
Proof.
  unfold after_loop. destruct ts as [|x ts]; [done|].
  rewrite last_cons_cons.
  destruct (last (x :: ts)) eqn:E; [done|]. by apply last_None in E.
Qed.

Lemma update_task_loop_names_last updates ts task w :
  holds_tasks (store w) ts ->
  update_task_loop updates task ts w
  = (Raised (ValueError_not_found (after_loop task ts)), w).
Proof.
  unfold holds_tasks. intros H; revert task.
  induction H as [|l ts [t Hl] _ IH]; intros task; cbn [update_task_loop]; [done|].
  rewrite (bind_returned _ _ _ _ _ (getattr_task _ _ l t w Hl)).
  unfold bind, equal. rewrite description_never_equals_task.
  rewrite IH. by rewrite (after_loop_cons task).
Qed.

Lemma delete_task_loop_names_last ts task w :
  holds_tasks (store w) ts ->
  delete_task_loop task ts w
  = (Raised (ValueError_not_found (after_loop task ts)), w).
Proof.
  unfold holds_tasks. intros H; revert task.
  induction H as [|l ts [t Hl] _ IH]; intros task; cbn [delete_task_loop]; [done|].
  rewrite (bind_returned _ _ _ _ _ (getattr_task _ _ l t w Hl)).
  unfold bind, equal. rewrite description_never_equals_task.
  rewrite IH. by rewrite (after_loop_cons task).
Qed.

(** X21.  The error that [update_task] and [delete_task] report on a pool
    of tasks does not name the description asked for: the message is
    built from the loop variable, so it names the last task of the pool,
    and the argument only when the pool is empty. *)
Theorem not_found_names_last_task w ts task updates :
  tasks (self w) = Some ts -> holds_tasks (store w) ts ->
  update_task task updates w
  = (Returned tt,
     with_stdout
       (stdout w ++ [Diag "Error updating task in workflow"
                          (ValueError_not_found (after_loop task ts))]) w) /\
  delete_task task w
  = (Returned tt,
     with_stdout
       (stdout w ++ [Diag "Error deleting task from workflow"
                          (ValueError_not_found (after_loop task ts))]) w).
Proof.
  intros Hts Hok.
  assert (Hget : get_tasks w = (Returned ts, w)) by (unfold get_tasks; by rewrite Hts).
  split.
  - unfold update_task. apply try_except_raised. unfold update_task_body.
    rewrite (bind_returned _ _ _ _ _ Hget). by apply update_task_loop_names_last.
  - unfold delete_task. apply try_except_raised. unfold delete_task_body.
    rewrite (bind_returned _ _ _ _ _ Hget). by apply delete_task_loop_names_last.
Qed.

Lemma not_found_names_last_task_witness :
  delete_task (VData (PStr "fetch-weather")) two_tasks
  = (Returned tt,
     with_stdout
       [Diag "Error deleting task from workflow" (ValueError_not_found (VTask 1))]
       two_tasks).
Proof.
  assert (Hok : holds_tasks (store two_tasks) [0; 1]).
  { repeat constructor; by eexists. }
  exact (proj2 (not_found_names_last_task two_tasks [0; 1]
                  (VData (PStr "fetch-weather")) [] eq_refl Hok)).
Defined.

End soft_failures.

(** * One list under two names *)

Section shared_list.

Implicit Types (i : instance) (w : world) (ts pool : list loc).

Lemma add_world task more w :
  snd (add task more w) = retarget (task_pool (self w) ++ added task more) w.
Proof.
  destruct task as [t|]; [done|].
  destruct more as [[|t ts]|]; cbn; try done; by rewrite app_nil_r, retarget_id.
Qed.

Lemma show_in_tasks_id w :
  tasks (self w) = Some (task_pool (self w)) -> show_in_tasks w = w.
Proof. destruct w as [st [tp t m s r] d out]. cbn. by intros ->. Qed.

Lemma show_in_task_pool_id w :
  tasks (self w) = Some (task_pool (self w)) -> show_in_task_pool w = w.
Proof.
  unfold show_in_task_pool. intros ->. apply retarget_id.
Qed.

Lemma well_formed_same w w' (b : bool) :
  self w' = self w -> well_formed (mkInstance w b) -> well_formed (mkInstance w' b).
Proof. unfold well_formed. cbn. by intros ->. Qed.

Lemma well_formed_shown w (b : bool) :
  is_Some (tasks (self w)) ->
  well_formed (mkInstance (if b then show_in_task_pool w else w) b).
Proof.
  intros [ts Hts] Hb. cbn in Hb. subst b. cbn.
  unfold show_in_task_pool. by rewrite Hts.
Qed.

Lemma get_task_results_fold w ts :
  tasks (self w) = Some ts -> described_by_strings (store w) ts ->
  get_task_results w
  = (Returned (Some (fold_left (add_result (store w)) ts [])), w).
Proof.
  intros Hts Hstr. unfold get_task_results. apply try_except_returned.
  unfold get_task_results_body.
  assert (Hget : get_tasks w = (Returned ts, w)) by (unfold get_tasks; by rewrite Hts).
  rewrite (bind_returned _ _ _ _ _ Hget).
  by rewrite (bind_returned _ _ _ _ _ (results_of_fold ts [] w Hstr)).
Qed.

Lemma records_of_snoc (st : list Task) ts l t :
  st !! l = Some t -> records_of st (ts ++ [l]) = records_of st ts ++ [record_of t].
Proof.
  intros Hl. unfold records_of. rewrite omap_app. cbn. by rewrite Hl.
Qed.

(** The methods of [InPlace] keep an instance well formed. *)
Lemma well_formed_kept i :
  well_formed i ->
  (forall task more, well_formed (snd (InPlace.add task more i))) /\
  well_formed (snd (InPlace.reset i)) /\
  well_formed (snd (InPlace.get_task_results i)) /\
  (forall task, well_formed (snd (InPlace.remove_task task i))) /\
  (forall task updates, well_formed (snd (InPlace.update_task task updates i))) /\
  (forall task, well_formed (snd (InPlace.delete_task task i))) /\
  (forall filepath, well_formed (snd (InPlace.save_workflow_state filepath i))) /\
  (forall filepath, well_formed (snd (InPlace.load_workflow_state filepath i))) /\
  (forall task kwargs,
     well_formed (snd (snd (InPlace.add_objective_to_workflow task kwargs i)))).
Proof.
  destruct i as [w b]. intros Hwf. repeat split.
  - intros task more Hb. cbn in Hb. subst b. reflexivity.
  - unfold InPlace.reset, InPlace.on_state. cbn [snd state same_list].
    apply (well_formed_same w); [|done]. rewrite reset_world.
    destruct (tasks (self w)) as [ts|]; [|done]. cbn zeta. cbn [snd].
    by destruct (fst (clear_results ts (store w))).
  - unfold InPlace.get_task_results, InPlace.on_state. cbn [snd state same_list].
    apply (well_formed_same w); [|done].
    by destruct (get_task_results_state w) as (_ & -> & _).
  - intros task. unfold InPlace.remove_task, InPlace.rebinding, returns.
    cbn [snd state same_list]. unfold remove_task.
    destruct (remove_task_body_world task w) as [H | [e H]].
    + rewrite H. cbn [fst negb]. rewrite andb_false_r. intros Hb; discriminate Hb.
    + rewrite H, (try_except_raised _ _ _ _ _ _ H). cbn [fst snd negb].
      rewrite andb_true_r. by apply (well_formed_same w).
  - intros task updates. unfold InPlace.update_task, InPlace.on_state.
    cbn [snd state same_list]. unfold update_task.
    destruct (update_task_body_raises task updates w) as [e H].
    rewrite (try_except_raised _ _ _ _ _ _ H). by apply (well_formed_same w).
  - intros task. unfold InPlace.delete_task, InPlace.on_tasks.
    cbn [snd state same_list]. unfold delete_task.
    destruct (delete_task_body_raises task w) as [e H].
    rewrite (try_except_raised _ _ _ _ _ _ H). cbn [snd].
    intros Hb. cbn in Hb. subst b. cbn [state same_list].
    specialize (Hwf eq_refl). cbn in Hwf.
    unfold show_in_task_pool. cbn. by rewrite Hwf.
  - intros fp. unfold InPlace.save_workflow_state, InPlace.on_state.
    cbn [snd state same_list]. apply (well_formed_same w); [|done].
    rewrite save_world_plan. cbn [snd]. cbn zeta.
    by destruct (save_plan _ _ _ _) as [[[]|e] [[p c]|]].
  - intros fp. unfold InPlace.load_workflow_state, InPlace.rebinding, returns.
    cbn [snd state same_list].
    destruct (load_source fp w) as [[sm|e] w'] eqn:Hsrc; cbn [fst negb].
    + rewrite andb_false_r. intros Hb; discriminate Hb.
    + rewrite andb_true_r. pose proof (load_source_world _ _ _ _ Hsrc) as ->.
      unfold load_workflow_state, load_workflow_state_body.
      rewrite (try_except_raised _ _ _ _ _ _ (bind_raised _ _ _ _ _ Hsrc)).
      by apply (well_formed_same w).
  - intros task kwargs. unfold InPlace.add_objective_to_workflow, InPlace.on_tasks.
    cbn [snd state same_list]. destruct b; [|intros Hb; discriminate Hb].
    apply (well_formed_shown _ true).
    specialize (Hwf eq_refl). cbn in Hwf.
    unfold add_objective_to_workflow, try_except. cbn [snd].
    destruct (add_objective_to_workflow_body task kwargs w) as [o w'] eqn:Hbody.
    assert (is_Some (tasks (self w'))) as Hsome.
    { destruct (add_objective_body_world _ _ _ _ _ Hbody)
        as [-> | [(t & Hts & ->) | (t & ts & Hts & ->)]]; [by eexists| |by eexists].
      rewrite Hwf in Hts. discriminate Hts. }
    by destruct o as [[]|e].
Qed.

(** The claim C10 fails in two ways.  A task that [tasks] holds already
    and that is given to [add] shows in the results as before.  And on a
    workflow whose [tasks] is the [task_pool] list, [add] does change
    [tasks]: the task added shows in the results and in the file. *)
Lemma added_task_shows :
  fst (InPlace.get_task_results
         (snd (InPlace.add (Some 0) None (mkInstance two_tasks false))))
  = Returned (Some [(PStr "fetch-weather", PStr "sunny"); (PStr "build-report", PNone)]) /\
  tasks (self (state one_list)) = Some [] /\
  tasks (self (state (snd (InPlace.add (Some 0) None one_list)))) = Some [0] /\
  fst (InPlace.get_task_results (snd (InPlace.add (Some 0) None one_list)))
  = Returned (Some [(PStr "fetch-weather", PStr "sunny")]) /\
  files (disk (state (snd (InPlace.save_workflow_state (Some "state.json")
                            (snd (InPlace.add (Some 0) None one_list))))))
    !! "state.json"
  = Some (FDoc (PDict [("tasks", PList [record_of weather]); ("max_loops", PInt 1)])).
Proof. repeat split; vm_compute; reflexivity. Qed.

(** C10, amended.  [add] appends what it is given to the list of
    [task_pool] and touches neither the store nor the files nor the
    output; the seven other methods never use the attribute [task_pool],
    they reach the tasks through [tasks] only, and leave in [task_pool]
    what they found there.  Where [tasks] is another
    list than [task_pool], [add] leaves [tasks] as it is, and what
    [get_task_results] returns and what [save_workflow_state] writes are
    the same after the [add] as before it; on tasks described by strings
    a description that no task of [tasks] carries is then no key of the
    mapping.  Where [tasks] is the [task_pool] list, what was added is in
    [tasks] too: a task added shows in the mapping with its result, when
    the tasks are described by strings, and is the last record of the
    file, when the save meets no obstacle. *)
Theorem add_shows_where_the_list_is_shared i task more :
  well_formed i ->
  let w := state i in
  let pool := task_pool (self w) in
  let i' := snd (InPlace.add task more i) in
  (well_formed i' /\ same_list i' = same_list i /\
   task_pool (self (state i')) = pool ++ added task more /\
   store (state i') = store w /\ disk (state i') = disk w /\
   stdout (state i') = stdout w) /\
  (ignores_task_pool reset /\
   ignores_task_pool get_task_results /\
   (forall task, ignores_task_pool (remove_task task)) /\
   (forall task updates, ignores_task_pool (update_task task updates)) /\
   (forall task, ignores_task_pool (delete_task task)) /\
   (forall filepath, ignores_task_pool (save_workflow_state filepath)) /\
   (forall filepath, ignores_task_pool (load_workflow_state filepath))) /\
  (task_pool (self (state (snd (InPlace.reset i)))) = pool /\
   task_pool (self (state (snd (InPlace.get_task_results i)))) = pool /\
   (forall task, task_pool (self (state (snd (InPlace.remove_task task i)))) = pool) /\
   (forall task updates,
      task_pool (self (state (snd (InPlace.update_task task updates i)))) = pool) /\
   (forall task, task_pool (self (state (snd (InPlace.delete_task task i)))) = pool) /\
   (forall filepath,
      task_pool (self (state (snd (InPlace.save_workflow_state filepath i)))) = pool) /\
   (forall filepath,
      task_pool (self (state (snd (InPlace.load_workflow_state filepath i)))) = pool)) /\
  (same_list i = false ->
     state i' = retarget (pool ++ added task more) w /\
     tasks (self (state i')) = tasks (self w) /\
     fst (InPlace.get_task_results i') = fst (InPlace.get_task_results i) /\
     (forall filepath,
        disk (state (snd (InPlace.save_workflow_state filepath i')))
        = disk (state (snd (InPlace.save_workflow_state filepath i)))) /\
     (forall ts s,
        tasks (self w) = Some ts -> described_by_strings (store w) ts ->
        (forall l t, l ∈ ts -> store w !! l = Some t -> description t <> PStr s) ->
        exists d, fst (InPlace.get_task_results i') = Returned (Some d) /\
                  PStr s ∉ d.*1)) /\
  (same_list i = true ->
     tasks (self (state i')) = Some (pool ++ added task more) /\
     (forall l t,
        task = Some l -> store w !! l = Some t ->
        described_by_strings (store w) (pool ++ [l]) ->
        exists d, fst (InPlace.get_task_results i') = Returned (Some d) /\
                  getitem (description t) d = Some (result t)) /\
     (forall l t path m,
        task = Some l -> store w !! l = Some t ->
        saveable (store w) (pool ++ [l]) ->
        max_loops (self w) = Some m -> serialisable m = true ->
        can_open (disk w) path = true ->
        files (disk (state (snd (InPlace.save_workflow_state (Some path) i')))) !! path
        = Some (FDoc (PDict [("tasks", PList (records_of (store w) pool ++ [record_of t]));
                             ("max_loops", m)])))).
Proof.
  intros Hwf w pool i'.
  assert (Hi' : i' = mkInstance
                       (if same_list i
                        then show_in_tasks (retarget (pool ++ added task more) w)
                        else retarget (pool ++ added task more) w)
                       (same_list i)).
  { unfold i', InPlace.add, InPlace.on_task_pool. cbn [snd]. by rewrite add_world. }
  clearbody i'. subst i'. cbn [state same_list].
  split; [|split; [|split; [|split]]].
  - split; [|by destruct (same_list i)].
    intros Hb. cbn in Hb. rewrite Hb. reflexivity.
  - repeat split; intros;
      auto using ignores_reset, ignores_get_task_results, ignores_remove_task,
        ignores_update_task, ignores_delete_task, ignores_save_workflow_state,
        ignores_load_workflow_state.
  - assert (Hdel : forall task,
              task_pool (self (state (snd (InPlace.delete_task task i)))) = pool).
    { intros task0. unfold InPlace.delete_task, InPlace.on_tasks. cbn [snd state].
      destruct (same_list i) eqn:Hb;
        [|apply ignores_keeps_task_pool, ignores_delete_task].
      unfold delete_task.
      destruct (delete_task_body_raises task0 (state i)) as [e H].
      rewrite (try_except_raised _ _ _ _ _ _ H). cbn [snd].
      unfold show_in_task_pool. cbn. by rewrite (Hwf Hb). }
    repeat split; intros; try apply Hdel;
      unfold InPlace.reset, InPlace.get_task_results, InPlace.remove_task,
        InPlace.update_task, InPlace.save_workflow_state, InPlace.load_workflow_state,
        InPlace.on_state, InPlace.rebinding;
      cbn [snd state]; apply ignores_keeps_task_pool;
      auto using ignores_reset, ignores_get_task_results, ignores_remove_task,
        ignores_update_task, ignores_save_workflow_state, ignores_load_workflow_state.
  - intros ->. unfold InPlace.get_task_results, InPlace.save_workflow_state,
      InPlace.on_state. cbn [fst snd state same_list].
    assert (Hres : fst (get_task_results (retarget (pool ++ added task more) w))
                   = fst (get_task_results (state i)))
      by (by rewrite ignores_get_task_results).
    split; [done|]. split; [done|]. split; [exact Hres|]. split.
    + intros fp. by rewrite ignores_save_workflow_state.
    + intros ts s Hts Hstr Hnone. rewrite Hres.
      fold w. rewrite (get_task_results_fold w ts Hts Hstr). cbn [fst].
      eexists; split; [reflexivity|].
      intros [[]%elem_of_nil | (l & t & Hin & Hl & Hd)]%fold_results_keys.
      by apply (Hnone l t).
  - intros Hshared. rewrite Hshared.
    set (w' := show_in_tasks (retarget (pool ++ added task more) w)).
    assert (Hts' : tasks (self w') = Some (pool ++ added task more)) by done.
    split; [exact Hts'|]. split.
    + intros l t -> Hl Hstr. cbn [added] in Hts'.
      unfold InPlace.get_task_results, InPlace.on_state. cbn [fst snd state].
      rewrite (get_task_results_fold w' (pool ++ [l]) Hts' Hstr). cbn [fst].
      eexists; split; [reflexivity|].
      apply (fold_results_last_wins _ _ _ (length pool) l t); [exact Hstr| |exact Hl|].
      * by rewrite list_lookup_middle.
      * intros j l' t' Hj Hlk. apply lookup_lt_Some in Hlk.
        rewrite length_app in Hlk. cbn in Hlk. lia.
    + intros l t path m -> Hl Hsave Hm Hser Hopen. cbn [added] in Hts'.
      unfold InPlace.save_workflow_state, InPlace.on_state. cbn [fst snd state].
      rewrite (save_world w' path (pool ++ [l]) m Hts' Hsave Hm Hser Hopen).
      cbn [snd disk with_disk write_file files].
      rewrite lookup_insert_eq. unfold saved_document.
      change (store w') with (store w). by rewrite (records_of_snoc _ _ _ _ Hl).
Qed.

Lemma add_shows_where_the_list_is_shared_witness :
  well_formed one_list /\
  tasks (self (state (snd (InPlace.add (Some 0) None one_list)))) = Some [0] /\
  well_formed two_lists_apart /\
  tasks (self (state (snd (InPlace.add (Some 0) None two_lists_apart)))) = Some [].
Proof.
  assert (H1 : well_formed one_list) by (intros _; reflexivity).
  assert (H2 : well_formed two_lists_apart) by (intros H; discriminate H).
  destruct (add_shows_where_the_list_is_shared one_list (Some 0) None H1)
    as (_ & _ & _ & _ & Hone).
  destruct (add_shows_where_the_list_is_shared two_lists_apart (Some 0) None H2)
    as (_ & _ & _ & Htwo & _).
  split; [exact H1|]. split; [exact (proj1 (Hone eq_refl))|].
  split; [exact H2|]. exact (proj1 (proj2 (Htwo eq_refl))).
Defined.

(** X7.  Given an agent, arguments that can be listed and keyword
    arguments, [add_objective_to_workflow] prints its banner and appends
    one new task to the list of [tasks]: a new object with the
    description, agent, listed arguments and keyword arguments passed,
    no result and an empty history.  The tasks already there and the
    files are untouched and no error is reported.  [task_pool] is
    untouched where it is another list; where it is the list of
    [tasks], it has the new task at its end too. *)
Theorem add_objective_to_workflow_appends_in_place task kwargs i ts a ar items k :
  well_formed i ->
  tasks (self (state i)) = Some ts ->
  dict_get "agent" kwargs = Some a ->
  dict_get "args" kwargs = Some ar ->
  py_iter ar (state i) = (Returned items, state i) ->
  dict_get "kwargs" kwargs = Some k ->
  let w := state i in
  let w' := with_self (with_tasks (Some (ts ++ [length (store w)])) (self w))
              (with_store (store w ++ [mkTask task a (PList items) k PNone (PList [])]) w) in
  InPlace.add_objective_to_workflow task kwargs i
  = (objective_banner,
     (Returned tt,
      mkInstance (if same_list i then retarget (ts ++ [length (store w)]) w' else w')
                 (same_list i))) /\
  task_pool (self (state (snd (snd (InPlace.add_objective_to_workflow task kwargs i)))))
  = (if same_list i then task_pool (self w) ++ [length (store w)]
     else task_pool (self w)) /\
  well_formed (snd (snd (InPlace.add_objective_to_workflow task kwargs i))).
Proof.
  intros Hwf Hts Ha Har Hit Hk w w'.
  assert (Heq : InPlace.add_objective_to_workflow task kwargs i
                = (objective_banner,
                   (Returned tt,
                    mkInstance (if same_list i
                                then retarget (ts ++ [length (store w)]) w' else w')
                               (same_list i)))).
  { unfold InPlace.add_objective_to_workflow, InPlace.on_tasks.
    rewrite (add_objective_to_workflow_world task kwargs (state i) ts a ar items k
               Hts Ha Har Hit Hk).
    cbn [fst snd]. reflexivity. }
  split; [exact Heq|]. rewrite Heq. cbn [snd state]. split.
  - destruct (same_list i) eqn:Hb; [|done].
    specialize (Hwf Hb). rewrite Hts in Hwf.
    injection Hwf as Hpool. subst w w'. cbn. by rewrite <- Hpool.
  - intros Hb. cbn in Hb. rewrite Hb. reflexivity.
Qed.

Lemma add_objective_to_workflow_appends_in_place_witness :
  let call :=
    InPlace.add_objective_to_workflow (PStr "summarise")
      [("agent", PObj 3); ("args", PList [PInt 1]); ("kwargs", PDict [])] in
  let summarise :=
    mkTask (PStr "summarise") (PObj 3) (PList [PInt 1]) (PDict []) PNone (PList []) in
  well_formed one_list /\
  snd (snd (call one_list))
  = mkInstance (mkWorld [weather; summarise]
                        (mkWorkflow [1] (Some [1]) (Some (PInt 1)) None None)
                        no_files [])
               true /\
  snd (snd (call two_lists_apart))
  = mkInstance (mkWorld [weather; summarise]
                        (mkWorkflow [] (Some [1]) (Some (PInt 1)) None None)
                        no_files [])
               false.
Proof.
  intros call summarise.
  assert (H1 : well_formed one_list) by (intros _; reflexivity).
  assert (H2 : well_formed two_lists_apart) by (intros H; discriminate H).
  split; [exact H1|]. split.
  - unfold call.
    rewrite (proj1 (add_objective_to_workflow_appends_in_place (PStr "summarise")
               [("agent", PObj 3); ("args", PList [PInt 1]); ("kwargs", PDict [])]
               one_list [] (PObj 3) (PList [PInt 1]) [PInt 1] (PDict [])
               H1 eq_refl eq_refl eq_refl eq_refl eq_refl)).
    reflexivity.
  - unfold call.
    rewrite (proj1 (add_objective_to_workflow_appends_in_place (PStr "summarise")
               [("agent", PObj 3); ("args", PList [PInt 1]); ("kwargs", PDict [])]
               two_lists_apart [] (PObj 3) (PList [PInt 1]) [PInt 1] (PDict [])
               H2 eq_refl eq_refl eq_refl eq_refl eq_refl)).
    reflexivity.
Defined.

(** X18.  [__repr__] is [__str__], and the text tells the length of
    [task_pool] and nothing else: two workflows print the same exactly
    when their [task_pool] lists are equally long.  So the text changes
    with every [add] of a task and does not change when tasks are
    restored by [load_workflow_state], whether or not [tasks] is the
    [task_pool] list.  When a task is registered by
    [add_objective_to_workflow], the text does not change where [tasks]
    is another list than [task_pool], and changes where it is that list
    and the call succeeds. *)
Theorem str_counts_task_pool_only :
  (forall w, __repr__ w = __str__ w) /\
  (forall w w',
     __str__ w = __str__ w' <->
     length (task_pool (self w)) = length (task_pool (self w'))) /\
  (forall t tasks w, __str__ (snd (add (Some t) tasks w)) <> __str__ w) /\
  (forall filepath w, __str__ (snd (load_workflow_state filepath w)) = __str__ w) /\
  (forall t tasks i,
     __str__ (state (snd (InPlace.add (Some t) tasks i))) <> __str__ (state i)) /\
  (forall filepath i,
     __str__ (state (snd (InPlace.load_workflow_state filepath i))) = __str__ (state i)) /\
  (forall task kwargs i,
     same_list i = false ->
     __str__ (state (snd (snd (InPlace.add_objective_to_workflow task kwargs i))))
     = __str__ (state i)) /\
  (forall task kwargs i ts a ar items k,
     same_list i = true -> well_formed i ->
     tasks (self (state i)) = Some ts ->
     dict_get "agent" kwargs = Some a ->
     dict_get "args" kwargs = Some ar ->
     py_iter ar (state i) = (Returned items, state i) ->
     dict_get "kwargs" kwargs = Some k ->
     __str__ (state (snd (snd (InPlace.add_objective_to_workflow task kwargs i))))
     <> __str__ (state i)).
Proof.
  assert (Hadd : forall t tasks w, __str__ (snd (add (Some t) tasks w)) <> __str__ w).
  { intros t tasks w H. apply str_length in H. cbn in H.
    rewrite length_app in H. cbn in H. lia. }
  assert (Hload : forall filepath w,
            __str__ (snd (load_workflow_state filepath w)) = __str__ w).
  { intros filepath w. apply str_length. f_equal.
    apply ignores_keeps_task_pool, ignores_load_workflow_state. }
  split; [done|]. split; [apply str_length|]. split; [exact Hadd|].
  split; [exact Hload|]. split; [|split; [|split]].
  - intros t tasks i H. apply (Hadd t tasks (state i)).
    rewrite <- H. apply str_length.
    unfold InPlace.add, InPlace.on_task_pool. cbn [snd state].
    by destruct (same_list i).
  - intros filepath i. apply Hload.
  - intros task kwargs i Hb. apply str_length.
    unfold InPlace.add_objective_to_workflow, InPlace.on_tasks. rewrite Hb.
    cbn [snd state]. unfold add_objective_to_workflow, try_except. cbn [snd].
    destruct (add_objective_to_workflow_body task kwargs (state i)) as [o w'] eqn:Hbody.
    assert (task_pool (self w') = task_pool (self (state i))) as Htp.
    { destruct (add_objective_body_world _ _ _ _ _ Hbody)
        as [-> | [(t & _ & ->) | (t & ts & _ & ->)]]; done. }
    destruct o as [[]|e]; cbn; by rewrite Htp.
  - intros task kwargs i ts a ar items k Hb Hwf Hts Ha Har Hit Hk H.
    apply str_length in H.
    unfold InPlace.add_objective_to_workflow, InPlace.on_tasks in H.
    rewrite (add_objective_to_workflow_world task kwargs (state i) ts a ar items k
               Hts Ha Har Hit Hk) in H.
    rewrite Hb in H. cbn in H.
    specialize (Hwf Hb). rewrite Hts in Hwf. injection Hwf as ->.
    rewrite length_app in H. cbn in H. lia.
Qed.

End shared_list.
